(** * SARIT_PDS: detection pipeline and watchdog supervisor

    A shallow embedding of [combined_detection_depth_uvc.py] (frame
    pipeline, detection worker, alert controller, telemetry publisher, main
    loop), of [watchdog_service.py] (process supervisor) and of the demo
    mode of [proximity_warning_emulator.py].

    Conventions of the embedding:
    - Python exceptions are values of an [exn] type carried by [result];
      a [try ... except] is a [match] on that result.
    - Calls on external objects (pygame mixer, UDP socket, subprocess
      handle, [time.sleep]) are recorded in an event trace, in call order.
    - [print] and [logger] calls, drawing and FPS accounting neither change
      any state nor any control flow modelled here and are left out.
    - [queue.Queue] is thread-safe; a concurrent execution is a sequence of
      atomic queue operations, so threads are modelled by interleaving
      whole steps ([Submit], [WorkerStep], [Read]). *)

From Stdlib Require Import ZArith List String Ascii Bool Lia.
From Stdlib Require Import DecimalString.
Import ListNotations.

Set Implicit Arguments.

(** ** Exceptions and results *)

Inductive result (E A : Type) : Type :=
| Ok (a : A)
| Raise (e : E).
Arguments Ok {E A} a.
Arguments Raise {E A} e.

Definition bind {E A B} (r : result E A) (k : A -> result E B) : result E B :=
  match r with
  | Ok a => k a
  | Raise e => Raise e
  end.

Notation "x <- r ;; k" := (bind r (fun x => k))
  (at level 61, r at next level, right associativity).

(** ** [queue.Queue(maxsize)] *)

Module PyQueue.

Inductive exn := Empty | Full.

Record t (A : Type) := mk { maxsize : nat; items : list A }.
Arguments mk {A} maxsize items.

Definition Queue {A} (maxsize : nat) : t A := mk maxsize [].

Definition qsize {A} (q : t A) : nat := List.length (items q).

(** [full()]: [0 < maxsize <= qsize()]. *)
Definition full {A} (q : t A) : bool :=
  (0 <? maxsize q)%nat && (maxsize q <=? qsize q)%nat.

(** [put_nowait(item)]: raises [Full] instead of waiting. *)
Definition put_nowait {A} (x : A) (q : t A) : result exn (t A) :=
  if full q then Raise Full else Ok (mk (maxsize q) (items q ++ [x])).

(** [get_nowait()]: raises [Empty] instead of waiting; FIFO order. *)
Definition get_nowait {A} (q : t A) : result exn (A * t A) :=
  match items q with
  | [] => Raise Empty
  | x :: rest => Ok (x, mk (maxsize q) rest)
  end.

(** [get(timeout=...)] when no producer runs in between: an empty queue
    stays empty for the whole timeout and [Empty] is raised. *)
Definition get_timeout {A} (q : t A) : result exn (A * t A) := get_nowait q.

(** [put(item)] on a queue observed not full by its only producer. *)
Definition put {A} (x : A) (q : t A) : t A := mk (maxsize q) (items q ++ [x]).

End PyQueue.

(** ** combined_detection_depth_uvc.py *)

Module Detection.

Definition VEHICLE_CLASSES : list (string * bool) :=
  [("person", true); ("bicycle", true); ("car", true);
   ("motorcycle", true); ("bus", true); ("truck", true)]%string.

(** [key in dict] *)
Definition dict_mem (k : string) (d : list (string * bool)) : bool :=
  existsb (fun kv => String.eqb k (fst kv)) d.

(** [str.lower()] on the ASCII labels of the network. *)
Definition lower_ascii (c : ascii) : ascii :=
  let n := nat_of_ascii c in
  if ((65 <=? n) && (n <=? 90))%nat then ascii_of_nat (n + 32) else c.

Fixpoint lower (s : string) : string :=
  match s with
  | EmptyString => EmptyString
  | String c r => String (lower_ascii c) (lower r)
  end.

Definition EMULATOR_IP : string := "127.0.0.1".
Definition EMULATOR_PORT : Z := 5555.

Definition dquote : string := String "034"%char EmptyString.

(** [json.dumps] of a dict from ASCII keys without escapes to ints, with
    the default separators. *)
Definition json_item (kv : string * Z) : string :=
  (dquote ++ fst kv ++ dquote ++ ": " ++ NilZero.string_of_int (Z.to_int (snd kv)))%string.

Definition json_dumps (d : list (string * Z)) : string :=
  ("{" ++ String.concat ", " (map json_item d) ++ "}")%string.

(** [str.encode('utf-8')] of an ASCII string: one byte per character. *)
Definition encode_utf8 (s : string) : list Byte.byte := list_byte_of_string s.

(** The bytes of the text [{"danger_level": 50}]. *)
Definition wire_danger_50 : list Byte.byte :=
  [Byte.x7b; Byte.x22; Byte.x64; Byte.x61; Byte.x6e; Byte.x67; Byte.x65;
   Byte.x72; Byte.x5f; Byte.x6c; Byte.x65; Byte.x76; Byte.x65; Byte.x6c;
   Byte.x22; Byte.x3a; Byte.x20; Byte.x35; Byte.x30; Byte.x7d].

(** The bytes of the text [{"danger_level": 0}]. *)
Definition wire_danger_0 : list Byte.byte :=
  [Byte.x7b; Byte.x22; Byte.x64; Byte.x61; Byte.x6e; Byte.x67; Byte.x65;
   Byte.x72; Byte.x5f; Byte.x6c; Byte.x65; Byte.x76; Byte.x65; Byte.x6c;
   Byte.x22; Byte.x3a; Byte.x20; Byte.x30; Byte.x7d].

Section Pipeline.

(** Frames and floats are opaque; the classifier is external. *)
Variable Frame : Type.
Variable float : Type.
(** Any [Exception] raised by the library calls. *)
Variable error : Type.

Record RawDetection := mkRaw {
  ClassID : Z; Confidence : float;
  Left : float; Top : float; Right : float; Bottom : float }.

Record DetectionT := mkDetection {
  bbox : list Z; class : string; confidence : float }.

Definition DetectionSet := list DetectionT.

(** Lines 170-178: colour conversion, upload and [net.Detect]. *)
Variable net_Detect : Frame -> result error (list RawDetection).
Variable net_GetClassDesc : Z -> result error string.
(** [int(x)]: raises on NaN and infinities. *)
Variable int_of_float : float -> result error Z.

(** The [for detection in detections] loop, accumulating into
    [detection_results]. *)
Fixpoint collect (detections : list RawDetection) (detection_results : DetectionSet)
  : result error DetectionSet :=
  match detections with
  | [] => Ok detection_results
  | detection :: rest =>
      class_name <- net_GetClassDesc (ClassID detection) ;;
      if dict_mem (lower class_name) VEHICLE_CLASSES then
        left <- int_of_float (Left detection) ;;
        top <- int_of_float (Top detection) ;;
        right <- int_of_float (Right detection) ;;
        bottom <- int_of_float (Bottom detection) ;;
        collect rest
          (detection_results ++
             [mkDetection [left; top; right; bottom] class_name (Confidence detection)])
      else collect rest detection_results
  end.

(** The body of the [try] of [jetson_object_detection]. *)
Definition jetson_object_detection_try (frame : Frame) : result error DetectionSet :=
  detections <- net_Detect frame ;;
  collect detections [].

(** [except Exception: return []] *)
Definition jetson_object_detection (frame : Frame) : DetectionSet :=
  match jetson_object_detection_try frame with
  | Ok detection_results => detection_results
  | Raise _ => []
  end.

(** *** FrameProcessor *)

Record FrameProcessor := mkFP {
  rgb_queue : PyQueue.t Frame;
  result_queue : PyQueue.t DetectionSet;
  running : bool }.

(** [__init__] *)
Definition FrameProcessor_init : FrameProcessor :=
  mkFP (PyQueue.Queue 2) (PyQueue.Queue 2) false.

Definition start (p : FrameProcessor) : FrameProcessor :=
  mkFP (rgb_queue p) (result_queue p) true.

Definition stop (p : FrameProcessor) : FrameProcessor :=
  mkFP (rgb_queue p) (result_queue p) false.

(** The [try] body of one iteration of [_detection_worker]. The state
    reached is returned next to the outcome: what a statement did before
    an exception stays done. *)
Definition detection_worker_try (p : FrameProcessor)
  : FrameProcessor * result PyQueue.exn unit :=
  match PyQueue.get_timeout (rgb_queue p) with
  | Raise e => (p, Raise e)
  | Ok (rgb_frame, q) =>
      let detections := jetson_object_detection rgb_frame in
      if negb (PyQueue.full (result_queue p))
      then (mkFP q (PyQueue.put detections (result_queue p)) (running p), Ok tt)
      else (mkFP q (result_queue p) (running p), Ok tt)
  end.

(** One iteration of [while self.running], with its handlers:
    [except Empty: continue] and [except Exception: print(...)]. *)
Definition detection_worker_iter (p : FrameProcessor)
  : FrameProcessor * result PyQueue.exn unit :=
  match detection_worker_try p with
  | (p', Ok _) => (p', Ok tt)
  | (p', Raise PyQueue.Empty) => (p', Ok tt)
  | (p', Raise _) => (p', Ok tt)
  end.

(** [add_rgb_frame]: [put_nowait] under a bare [except: pass]. *)
Definition add_rgb_frame (frame : Frame) (p : FrameProcessor)
  : FrameProcessor * result PyQueue.exn unit :=
  match PyQueue.put_nowait frame (rgb_queue p) with
  | Ok q => (mkFP q (result_queue p) (running p), Ok tt)
  | Raise _ => (p, Ok tt)
  end.

(** [get_latest_detection]: [get_nowait], [None] on [Empty]. *)
Definition get_latest_detection (p : FrameProcessor)
  : option DetectionSet * FrameProcessor :=
  match PyQueue.get_nowait (result_queue p) with
  | Ok (r, q) => (Some r, mkFP (rgb_queue p) q (running p))
  | Raise _ => (None, p)
  end.

(** Interleavings of the capture loop and the worker thread. *)
Inductive op :=
| Submit (frame : Frame)
| WorkerStep
| Read.

Definition step (o : op) (p : FrameProcessor) : FrameProcessor :=
  match o with
  | Submit f => fst (add_rgb_frame f p)
  | WorkerStep => fst (detection_worker_iter p)
  | Read => snd (get_latest_detection p)
  end.

Definition exec (ops : list op) (p : FrameProcessor) : FrameProcessor :=
  fold_left (fun s o => step o s) ops p.

(** Both queues keep their capacity of 2 and never hold more. *)
Definition bounded (p : FrameProcessor) : Prop :=
  PyQueue.maxsize (rgb_queue p) = 2%nat /\
  (PyQueue.qsize (rgb_queue p) <= 2)%nat /\
  PyQueue.maxsize (result_queue p) = 2%nat /\
  (PyQueue.qsize (result_queue p) <= 2)%nat.

(** *** Alert controller and telemetry publisher *)

(** Calls received by the pygame mixer and by the UDP socket. *)
Inductive event :=
| mixer_stop
| sound_play (loops : Z)
| sendto (payload : list Byte.byte) (ip : string) (port : Z).

Definition is_stop (e : event) : bool :=
  match e with mixer_stop => true | _ => false end.

Definition is_play (e : event) : bool :=
  match e with sound_play _ => true | _ => false end.

Definition is_send (e : event) : bool :=
  match e with sendto _ _ _ => true | _ => false end.

Definition calls (f : event -> bool) (evs : list (list event)) : nat :=
  List.length (filter f (List.concat evs)).

(** [has_detections], the danger state of a cycle. *)
Definition PRESENT : bool := true.
Definition ABSENT : bool := false.

(** Module-level variables of the alert side. *)
Record Globals := mkGlobals {
  sound_enabled : bool;
  emulator_enabled : bool;
  current_playing_sound : option string }.

Definition set_playing (s : option string) (g : Globals) : Globals :=
  mkGlobals (sound_enabled g) (emulator_enabled g) s.

Definition is_chiller (s : option string) : bool :=
  match s with
  | Some n => String.eqb n "chiller"
  | None => false
  end.

Definition play_alert_sound (has_detections : bool) (g : Globals)
  : Globals * list event :=
  if negb (sound_enabled g) then (g, [])
  else if has_detections then
    if negb (is_chiller (current_playing_sound g))
    then (set_playing (Some "chiller"%string) g, [mixer_stop; sound_play (-1)])
    else (g, [])
  else
    match current_playing_sound g with
    | Some _ => (set_playing None g, [mixer_stop])
    | None => (g, [])
    end.

Definition send_to_emulator (has_detections : bool) (g : Globals) : list event :=
  if negb (emulator_enabled g) then []
  else
    let detection_level := (if has_detections then 50 else 0)%Z in
    let message := json_dumps [("danger_level"%string, detection_level)] in
    [sendto (encode_utf8 message) EMULATOR_IP EMULATOR_PORT].

(** The alert controller fed one danger value per cycle. *)
Fixpoint alert_cycles (inputs : list bool) (g : Globals)
  : Globals * list (list event) :=
  match inputs with
  | [] => (g, [])
  | has_detections :: rest =>
      let (g1, ev) := play_alert_sound has_detections g in
      let (g2, evs) := alert_cycles rest g1 in
      (g2, ev :: evs)
  end.

(** *** Main loop *)

Record MainState := mkMain {
  processor : FrameProcessor;
  current_detections : DetectionSet;
  globals : Globals }.

Definition main_init (g : Globals) : MainState :=
  mkMain (start FrameProcessor_init) [] g.

(** [if rgb_queue.has(): ... processor.add_rgb_frame(rgb_frame.copy())];
    [rgb_in] is the frame the device queue holds, if any. *)
Definition submitted (rgb_in : option Frame) (p : FrameProcessor) : FrameProcessor :=
  match rgb_in with
  | Some rgb_frame => fst (add_rgb_frame rgb_frame p)
  | None => p
  end.

(** One pass of the [while True] of [main]. *)
Definition main_cycle (rgb_in : option Frame) (st : MainState)
  : MainState * list event :=
  let p1 := submitted rgb_in (processor st) in
  let (latest_detections, p2) := get_latest_detection p1 in
  let current_detections' := match latest_detections with
                             | Some d => d
                             | None => current_detections st
                             end in
  let has_detections := (0 <? List.length current_detections')%nat in
  let ev1 := if emulator_enabled (globals st)
             then send_to_emulator has_detections (globals st) else [] in
  let (g', ev2) := if sound_enabled (globals st)
                   then play_alert_sound has_detections (globals st)
                   else (globals st, []) in
  (mkMain p2 current_detections' g', ev1 ++ ev2).

(** The alert side has nothing left to do for the danger state of the
    current detections; true after every pass of the main loop. *)
Definition settled (st : MainState) : Prop :=
  sound_enabled (globals st) = true ->
  play_alert_sound (0 <? List.length (current_detections st))%nat (globals st)
    = (globals st, []).

(** Passes of the main loop while the worker thread makes no step. *)
Fixpoint main_cycles (inputs : list (option Frame)) (st : MainState)
  : MainState * list (list event) :=
  match inputs with
  | [] => (st, [])
  | rgb_in :: rest =>
      let (st1, ev) := main_cycle rgb_in st in
      let (st2, evs) := main_cycles rest st1 in
      (st2, ev :: evs)
  end.

End Pipeline.

Arguments WorkerStep {Frame}.
Arguments Read {Frame}.

End Detection.

(** ** watchdog_service.py *)

Module Watchdog.

(** Exceptions of the library calls the supervisor makes; all of them are
    subclasses of [Exception]. SIGINT is routed to [signal_handler], so
    [KeyboardInterrupt] is not delivered to the loop. *)
Inductive exn := TimeoutExpired | OSError | ValueError.

(** How a spawned child answers the calls made on its handle. *)
Record Child := mkChild {
  pid : Z;
  (** [poll()] calls that still find it running; [None]: never exits by itself *)
  lifetime : option nat;
  exit_code : Z;
  on_terminate : result exn unit;     (* [terminate()] *)
  on_wait_grace : result exn Z;       (* [wait(timeout=10)] after [terminate()] *)
  on_kill : result exn unit;          (* [kill()] *)
  on_wait : result exn Z }.           (* [wait()] after [kill()] *)

(** A [subprocess.Popen] object. *)
Record Popen := mkPopen {
  child : Child;
  returncode : option Z;
  polled : nat }.

Inductive event :=
| ev_sleep (ms : Z)                                   (* [time.sleep] *)
| ev_popen (cmd : list string) (started : option Z)   (* [subprocess.Popen]; pid when it returns *)
| ev_terminate (p : Z)
| ev_wait (p : Z) (timeout : option Z) (r : result exn Z)
| ev_kill (p : Z).

Record t := mk {
  script_path : string;
  camera_only : bool;
  restart_delay : Z;
  max_restarts : option Z;
  running : bool;
  process : option Popen;
  restart_count : Z;
  (** ghost: number of [Popen] calls made, and the calls in order *)
  popen_calls : nat;
  trace : list event }.

(** [__init__] *)
Definition init (script_path : string) (camera_only : bool)
  (restart_delay : Z) (max_restarts : option Z) : t :=
  mk script_path camera_only restart_delay max_restarts true None 0 0 [].

Definition set_running (b : bool) (w : t) : t :=
  mk (script_path w) (camera_only w) (restart_delay w) (max_restarts w)
     b (process w) (restart_count w) (popen_calls w) (trace w).

Definition set_process (h : option Popen) (w : t) : t :=
  mk (script_path w) (camera_only w) (restart_delay w) (max_restarts w)
     (running w) h (restart_count w) (popen_calls w) (trace w).

Definition set_restart_count (n : Z) (w : t) : t :=
  mk (script_path w) (camera_only w) (restart_delay w) (max_restarts w)
     (running w) (process w) n (popen_calls w) (trace w).

Definition called (e : event) (w : t) : t :=
  mk (script_path w) (camera_only w) (restart_delay w) (max_restarts w)
     (running w) (process w) (restart_count w) (popen_calls w) (trace w ++ [e]).

Definition count_popen (w : t) : t :=
  mk (script_path w) (camera_only w) (restart_delay w) (max_restarts w)
     (running w) (process w) (restart_count w) (S (popen_calls w)) (trace w).

(** State and exception monad: the state survives a raise. *)
Definition M (A : Type) : Type := t -> t * result exn A.

Definition ret {A} (a : A) : M A := fun w => (w, Ok a).

Definition mbind {A B} (m : M A) (k : A -> M B) : M B :=
  fun w => match m w with
           | (w', Ok a) => k a w'
           | (w', Raise e) => (w', Raise e)
           end.

Notation "x <~ m ;; k" := (mbind m (fun x => k))
  (at level 61, m at next level, right associativity).
Notation "m >> k" := (mbind m (fun _ => k))
  (at level 61, right associativity).

Definition gets {A} (f : t -> A) : M A := fun w => (w, Ok (f w)).

Definition modify (f : t -> t) : M unit := fun w => (f w, Ok tt).

(** A method that cannot raise. *)
Definition lift {A} (f : t -> t * A) : M A :=
  fun w => let (w', a) := f w in (w', Ok a).

(** [time.sleep(ms / 1000)]: a negative length raises [ValueError]. *)
Definition time_sleep (ms : Z) : M unit :=
  fun w => if (ms <? 0)%Z then (w, Raise ValueError)
           else (called (ev_sleep ms) w, Ok tt).

Definition seconds (s : Z) : Z := (1000 * s)%Z.
Arguments seconds : simpl never.

Definition build_command (w : t) : list string :=
  if camera_only w then [script_path w; "--camera-only"%string] else [script_path w].

(** [Popen.poll()] *)
Definition poll (h : Popen) : Popen * option Z :=
  match returncode h with
  | Some c => (h, Some c)
  | None =>
      let exited := match lifetime (child h) with
                    | Some n => (n <=? polled h)%nat
                    | None => false
                    end in
      if exited
      then (mkPopen (child h) (Some (exit_code (child h))) (polled h),
            Some (exit_code (child h)))
      else (mkPopen (child h) None (S (polled h)), None)
  end.

Section Supervisor.

(** The operating system: outcome of the n-th [Popen] call. *)
Variable spawn : nat -> list string -> result exn Child.

(** [start_process]: never raises, reports success. *)
Definition start_process (w : t) : t * bool :=
  let cmd := build_command w in
  match spawn (popen_calls w) cmd with
  | Ok c =>
      (set_process (Some (mkPopen c None 0))
         (called (ev_popen cmd (Some (pid c))) (count_popen w)), true)
  | Raise _ =>
      (called (ev_popen cmd None) (count_popen w), false)
  end.

(** [stop_process]: the [finally] clears the handle on every path. *)
Definition stop_process (w : t) : t :=
  match process w with
  | None => w
  | Some h =>
      let c := child h in
      let w1 := called (ev_terminate (pid c)) w in
      match on_terminate c with
      | Raise _ => set_process None w1
      | Ok _ =>
          let w2 := called (ev_wait (pid c) (Some 10%Z) (on_wait_grace c)) w1 in
          match on_wait_grace c with
          | Ok _ => set_process None w2
          | Raise TimeoutExpired =>
              let w3 := called (ev_kill (pid c)) w2 in
              match on_kill c with
              | Raise _ => set_process None w3
              | Ok _ =>
                  set_process None (called (ev_wait (pid c) None (on_wait c)) w3)
              end
          | Raise _ => set_process None w2
          end
      end
  end.

Definition signal_handler (w : t) : t := stop_process (set_running false w).

(** [monitor_process]: true while the child is running. *)
Definition monitor_process (w : t) : t * bool :=
  match process w with
  | None => (w, false)
  | Some h =>
      match poll h with
      | (_, Some _) => (set_process None w, false)
      | (h', None) => (set_process (Some h') w, true)
      end
  end.

Definition should_restart (w : t) : bool :=
  if negb (running w) then false
  else if (restart_count w =? 0)%Z then true
  else match max_restarts w with
       | Some m => if (restart_count w >=? m)%Z then false else true
       | None => true
       end.

Inductive flow := Continue | Break | Fallthrough.

(** First statement of the loop body: [if not self.process: ...]. *)
Definition ensure_started : M flow :=
  p <~ gets process ;;
  match p with
  | Some _ => ret Fallthrough
  | None =>
      allowed <~ gets should_restart ;;
      if negb allowed then ret Break
      else
        n <~ gets restart_count ;;
        d <~ gets restart_delay ;;
        (if (n >? 0)%Z then time_sleep (seconds d) else ret tt) >>
        started <~ lift start_process ;;
        if started
        then modify (fun w => set_restart_count (restart_count w + 1)%Z w) >>
             ret Fallthrough
        else time_sleep (seconds d) >> ret Continue
  end.

(** The [try] body of one iteration of [run]. *)
Definition run_try : M flow :=
  f <~ ensure_started ;;
  match f with
  | Fallthrough =>
      alive <~ lift monitor_process ;;
      if negb alive then ret Continue
      else time_sleep 500 >> ret Continue
  | _ => ret f
  end.

(** One iteration with the handler [except Exception: time.sleep(1)]. *)
Definition run_iter (w : t) : t * flow :=
  match run_try w with
  | (w', Ok Break) => (w', Break)
  | (w', Ok _) => (w', Continue)
  | (w', Raise _) => (fst (time_sleep (seconds 1) w'), Continue)
  end.

Inductive outcome :=
| Exited (w : t)        (* the [while] was left *)
| Looping (w : t).      (* iterations used up, loop still going *)

(** [while self.running: ...], at most [fuel] iterations. *)
Fixpoint run_loop (fuel : nat) (w : t) : outcome :=
  if negb (running w) then Exited w
  else
    match fuel with
    | O => Looping w
    | S fuel' =>
        match run_iter w with
        | (w', Break) => Exited w'
        | (w', _) => run_loop fuel' w'
        end
    end.

(** [run]: the loop, then the cleanup [stop_process]. *)
Definition run (fuel : nat) (w : t) : option t :=
  match run_loop fuel w with
  | Exited w' => Some (stop_process w')
  | Looping _ => None
  end.

(** Successful [Popen] calls in a trace: the starts of the child. *)
Definition is_start (e : event) : bool :=
  match e with
  | ev_popen _ (Some _) => true
  | _ => false
  end.

Definition starts (tr : list event) : nat := List.length (filter is_start tr).

Definition is_failed_spawn (e : event) : bool :=
  match e with
  | ev_popen _ None => true
  | _ => false
  end.

(** The child was seen dead: a [wait] on it returned its exit status. *)
Definition is_reaped (p : Z) (e : event) : bool :=
  match e with
  | ev_wait q _ (Ok _) => (p =? q)%Z
  | _ => false
  end.

Definition confirmed_dead (p : Z) (tr : list event) : bool :=
  existsb (is_reaped p) tr.

(** The state after the pause that precedes every start but the first. *)
Definition paused (w : t) : t :=
  if (restart_count w >? 0)%Z
  then called (ev_sleep (seconds (restart_delay w))) w else w.

(** The state after a [Popen] call, before its outcome is looked at. *)
Definition attempted (started : option Z) (w : t) : t :=
  called (ev_popen (build_command w) started) (count_popen (paused w)).

Definition failed_spawns (tr : list event) : nat :=
  List.length (filter is_failed_spawn tr).

(** The child exits on SIGTERM within the grace period. *)
Definition cooperates (c : Child) : bool :=
  match on_terminate c, on_wait_grace c with
  | Ok _, Ok _ => true
  | _, _ => false
  end.

(** The child sits out the grace period and is then killed and reaped. *)
Definition needs_kill (c : Child) : bool :=
  match on_terminate c, on_wait_grace c, on_kill c, on_wait c with
  | Ok _, Raise TimeoutExpired, Ok _, Ok _ => true
  | _, _, _, _ => false
  end.

(** The restart policy as a bound: at most [max(1, max_restarts)] starts. *)
Definition capped (w : t) : Prop :=
  (0 <= restart_count w)%Z /\
  forall cap : Z, max_restarts w = Some cap -> (restart_count w <= Z.max 1 cap)%Z.

Definition is_kill (e : event) : bool :=
  match e with
  | ev_kill _ => true
  | _ => false
  end.

(** *** A shutdown signal within an iteration

    The handler runs between two statements of the loop body; a sleep it
    interrupts is resumed afterwards. The methods the body calls are
    taken as atomic. *)
Inductive point :=
| at_body_start          (* before [if not self.process] *)
| before_restart_sleep   (* after [should_restart()] returned True *)
| before_start           (* after the sleep, before [start_process()] *)
| after_start            (* after [start_process()] returned *)
| before_monitor         (* before [monitor_process()] *)
| before_idle_sleep      (* after [monitor_process()] returned True *)
| after_idle_sleep.      (* after [time.sleep(0.5)] *)

Definition point_eqb (a b : point) : bool :=
  match a, b with
  | at_body_start, at_body_start
  | before_restart_sleep, before_restart_sleep
  | before_start, before_start
  | after_start, after_start
  | before_monitor, before_monitor
  | before_idle_sleep, before_idle_sleep
  | after_idle_sleep, after_idle_sleep => true
  | _, _ => false
  end.

(** The handler runs here if this is where the signal arrives. *)
Definition arrives (signal : option point) (here : point) : M unit :=
  match signal with
  | Some at_ => if point_eqb at_ here then modify signal_handler else ret tt
  | None => ret tt
  end.

(** [ensure_started] with the places where the handler may run. *)
Definition ensure_started_signalled (signal : option point) : M flow :=
  arrives signal at_body_start >>
  p <~ gets process ;;
  match p with
  | Some _ => ret Fallthrough
  | None =>
      allowed <~ gets should_restart ;;
      if negb allowed then ret Break
      else
        n <~ gets restart_count ;;
        d <~ gets restart_delay ;;
        arrives signal before_restart_sleep >>
        (if (n >? 0)%Z then time_sleep (seconds d) else ret tt) >>
        arrives signal before_start >>
        started <~ lift start_process ;;
        arrives signal after_start >>
        if started
        then modify (fun w => set_restart_count (restart_count w + 1)%Z w) >>
             ret Fallthrough
        else time_sleep (seconds d) >> ret Continue
  end.

(** [run_try] with the places where the handler may run. *)
Definition run_try_signalled (signal : option point) : M flow :=
  f <~ ensure_started_signalled signal ;;
  match f with
  | Fallthrough =>
      arrives signal before_monitor >>
      alive <~ lift monitor_process ;;
      if negb alive then ret Continue
      else arrives signal before_idle_sleep >>
           time_sleep 500 >>
           arrives signal after_idle_sleep >>
           ret Continue
  | _ => ret f
  end.

Definition run_iter_signalled (signal : option point) (w : t) : t * flow :=
  match run_try_signalled signal w with
  | (w', Ok Break) => (w', Break)
  | (w', Ok _) => (w', Continue)
  | (w', Raise _) => (fst (time_sleep (seconds 1) w'), Continue)
  end.

Definition is_terminate (p : Z) (e : event) : bool :=
  match e with
  | ev_terminate q => (p =? q)%Z
  | _ => false
  end.

(** The state a run of the loop has reached, left or not. *)
Definition state_of (o : outcome) : t :=
  match o with
  | Exited w => w
  | Looping w => w
  end.

End Supervisor.

End Watchdog.

(** ** A concrete installation, for evaluating the code *)

Module Scenario.

(** Frames are numbered; confidences and coordinates are integral. *)
Definition Frame := nat.
Definition float := Z.
Definition error := unit.

Definition car : Detection.RawDetection float :=
  Detection.mkRaw 3%Z 1%Z 10%Z 20%Z 110%Z 220%Z.

(** The classifier fails on frame 0, sees nothing in frame 1 and a car
    in every later frame. *)
Definition net_Detect (frame : Frame)
  : result error (list (Detection.RawDetection float)) :=
  match frame with
  | 0%nat => Raise tt
  | 1%nat => Ok []
  | _ => Ok [car]
  end.

Definition net_GetClassDesc (class_id : Z) : result error string :=
  Ok (if (class_id =? 1)%Z then "person"
      else if (class_id =? 3)%Z then "car" else "unknown")%string.

Definition int_of_float (x : float) : result error Z := Ok x.

Definition detect : Frame -> Detection.DetectionSet float :=
  Detection.jetson_object_detection net_Detect net_GetClassDesc int_of_float.

Definition worker_iter :=
  Detection.detection_worker_iter net_Detect net_GetClassDesc int_of_float.

Definition exec :=
  Detection.exec net_Detect net_GetClassDesc int_of_float.

Definition processor0 : Detection.FrameProcessor Frame float :=
  Detection.start (Detection.FrameProcessor_init Frame float).

Definition enabled : Detection.Globals := Detection.mkGlobals true true None.
Definition muted : Detection.Globals := Detection.mkGlobals false false None.

(** A child that exits at once, and one that ignores SIGTERM. *)
Definition short_lived (n : nat) : Watchdog.Child :=
  Watchdog.mkChild (100 + Z.of_nat n) (Some 0%nat) 1 (Ok tt) (Ok 1%Z) (Ok tt) (Ok 1%Z).

Definition stubborn : Watchdog.Child :=
  Watchdog.mkChild 200 None 0 (Ok tt) (Raise Watchdog.TimeoutExpired) (Ok tt) (Ok (-9)%Z).

Definition unreachable : Watchdog.Child :=
  Watchdog.mkChild 300 None 0 (Raise Watchdog.OSError) (Ok 0%Z) (Ok tt) (Ok 0%Z).

Definition always_spawns (n : nat) (cmd : list string)
  : result Watchdog.exn Watchdog.Child := Ok (short_lived n).

(** The first [Popen] call fails, the later ones succeed. *)
Definition flaky_spawns (n : nat) (cmd : list string)
  : result Watchdog.exn Watchdog.Child :=
  match n with
  | O => Raise Watchdog.OSError
  | S _ => Ok (short_lived n)
  end.

Definition never_spawns (n : nat) (cmd : list string)
  : result Watchdog.exn Watchdog.Child := Raise Watchdog.OSError.

Definition watchdog0 (max_restarts : option Z) : Watchdog.t :=
  Watchdog.init "./run_integrated_detection_system.sh" true 5 max_restarts.

End Scenario.

(** ** Histories of the pipeline *)

Module History.

(** [thins l l']: [l] is [l'] with some elements left out, order kept. *)
Inductive thins {A : Type} : list A -> list A -> Prop :=
| thins_nil : thins [] []
| thins_keep (x : A) (l l' : list A) : thins l l' -> thins (x :: l) (x :: l')
| thins_drop (x : A) (l l' : list A) : thins l l' -> thins l (x :: l').

Section Reads.

Variables Frame float error : Type.
Variable net_Detect : Frame -> result error (list (Detection.RawDetection float)).
Variable net_GetClassDesc : Z -> result error string.
Variable int_of_float : float -> result error Z.

(** The frames handed to [add_rgb_frame], in call order. *)
Definition submitted_frames (ops : list (Detection.op Frame)) : list Frame :=
  flat_map (fun o => match o with
                     | Detection.Submit f => [f]
                     | _ => []
                     end) ops.

(** A step of the pipeline that also collects what the calls of
    [get_latest_detection] return when it is not [None]. *)
Definition step_reads (o : Detection.op Frame)
  (s : Detection.FrameProcessor Frame float * list (Detection.DetectionSet float))
  : Detection.FrameProcessor Frame float * list (Detection.DetectionSet float) :=
  let p' := Detection.step net_Detect net_GetClassDesc int_of_float o (fst s) in
  match o with
  | Detection.Read =>
      match fst (Detection.get_latest_detection (fst s)) with
      | Some r => (p', snd s ++ [r])
      | None => (p', snd s)
      end
  | _ => (p', snd s)
  end.

Definition exec_reads (ops : list (Detection.op Frame))
  (p : Detection.FrameProcessor Frame float)
  : Detection.FrameProcessor Frame float * list (Detection.DetectionSet float) :=
  fold_left (fun s o => step_reads o s) ops (p, []).

(** What the frames taken by the worker so far ([taken]), those of them
    whose result was queued ([kept]) and the reads made have to do with
    each other. *)
Definition accounted (submitted : list Frame)
  (s : Detection.FrameProcessor Frame float * list (Detection.DetectionSet float))
  : Prop :=
  exists taken kept : list Frame,
    thins (taken ++ PyQueue.items (Detection.rgb_queue (fst s))) submitted /\
    thins kept taken /\
    map (Detection.jetson_object_detection net_Detect net_GetClassDesc int_of_float) kept
      = snd s ++ PyQueue.items (Detection.result_queue (fst s)).

(** The worker thread making one iteration between two passes of the main
    loop. *)
Definition worker_turn (st : Detection.MainState Frame float)
  : Detection.MainState Frame float :=
  Detection.mkMain
    (fst (Detection.detection_worker_iter net_Detect net_GetClassDesc int_of_float
            (Detection.processor st)))
    (Detection.current_detections st) (Detection.globals st).

End Reads.

Section Filter.

Variable float : Type.

(** A detection as the filter of [jetson_object_detection] lets it
    through. *)
Definition admissible (d : Detection.DetectionT float) : Prop :=
  Detection.dict_mem (Detection.lower (Detection.class d)) Detection.VEHICLE_CLASSES = true /\
  List.length (Detection.bbox d) = 4%nat.

(** The class table and [int()] as total functions. *)
Variable desc : Z -> string.
Variable trunc : float -> Z.

Definition allowed (raw : Detection.RawDetection float) : bool :=
  Detection.dict_mem (Detection.lower (desc (Detection.ClassID raw)))
    Detection.VEHICLE_CLASSES.

Definition converted (raw : Detection.RawDetection float) : Detection.DetectionT float :=
  Detection.mkDetection
    [trunc (Detection.Left raw); trunc (Detection.Top raw);
     trunc (Detection.Right raw); trunc (Detection.Bottom raw)]
    (desc (Detection.ClassID raw)) (Detection.Confidence raw).

End Filter.

(** A label of ASCII characters only: on these [str.lower] is [lower]. *)
Fixpoint is_ascii (s : string) : bool :=
  match s with
  | EmptyString => true
  | String c rest => (nat_of_ascii c <? 128)%nat && is_ascii rest
  end.

Section Answers.

Variables float error : Type.
Variable net_GetClassDesc : Z -> result error string.
Variable int_of_float : float -> result error Z.
Variable desc : Z -> string.
Variable trunc : float -> Z.

(** The calls that the loop of [jetson_object_detection] makes for one
    reported detection return, with the values [desc] and [trunc] give:
    the class lookup, and for an allowed class the four conversions. *)
Definition answers (raw : Detection.RawDetection float) : Prop :=
  net_GetClassDesc (Detection.ClassID raw) = Ok (desc (Detection.ClassID raw)) /\
  (allowed desc raw = true ->
   int_of_float (Detection.Left raw) = Ok (trunc (Detection.Left raw)) /\
   int_of_float (Detection.Top raw) = Ok (trunc (Detection.Top raw)) /\
   int_of_float (Detection.Right raw) = Ok (trunc (Detection.Right raw)) /\
   int_of_float (Detection.Bottom raw) = Ok (trunc (Detection.Bottom raw))).

End Answers.

(** Changes of the danger state along a run of cycles, [prev] being the
    state before the first of them. *)
Fixpoint rising (prev : bool) (inputs : list bool) : nat :=
  match inputs with
  | [] => 0
  | h :: rest => ((if negb prev && h then 1 else 0) + rising h rest)%nat
  end.

Fixpoint falling (prev : bool) (inputs : list bool) : nat :=
  match inputs with
  | [] => 0
  | h :: rest => ((if prev && negb h then 1 else 0) + falling h rest)%nat
  end.

End History.

(** ** proximity_warning_emulator.py, demo mode *)

Module Emulator.

Record t := mk {
  current_danger_level : Z;
  danger_direction : Z }.

(** [__init__]: level 0, increasing. *)
Definition init : t := mk 0 1.

Inductive event := time_sleep (seconds : Z).

(** [update_demo_danger] *)
Definition update_demo_danger (e : t) : t * list event :=
  let level := (current_danger_level e + danger_direction e * 1)%Z in
  if (level >=? 100)%Z then (mk 100 (-1), [])
  else if (level <=? 0)%Z then (mk 0 1, [time_sleep 1])
  else (mk level (danger_direction e), []).

(** [n] passes of [run] in demo mode, as far as the level is concerned. *)
Fixpoint demo (n : nat) (e : t) : t :=
  match n with
  | O => e
  | S n' => demo n' (fst (update_demo_danger e))
  end.

End Emulator.

(** ** Further cases for evaluating the code *)

Module Cases.

(** [int()] failing on the coordinate -1, standing for a NaN. *)
Definition int_of_float (x : Z) : result unit Z :=
  if (x =? -1)%Z then Raise tt else Ok x.

Definition broken_car : Detection.RawDetection Z :=
  Detection.mkRaw 3%Z 1%Z 10%Z (-1)%Z 110%Z 220%Z.

Definition person : Detection.RawDetection Z :=
  Detection.mkRaw 1%Z 1%Z 5%Z 6%Z 7%Z 8%Z.

Definition dog : Detection.RawDetection Z :=
  Detection.mkRaw 18%Z 1%Z 1%Z 2%Z 3%Z 4%Z.

(** Frame 0 shows a person and a car whose box cannot be converted; any
    other frame a dog, a person and a car. *)
Definition net_Detect (frame : nat)
  : result unit (list (Detection.RawDetection Z)) :=
  match frame with
  | O => Ok [person; broken_car]
  | S _ => Ok [dog; person; Scenario.car]
  end.

Definition desc (class_id : Z) : string :=
  (if (class_id =? 1)%Z then "person"
   else if (class_id =? 3)%Z then "car" else "unknown")%string.

(** The supervisor after its first child has exited, with a negative
    restart delay. *)
Definition impatient : Watchdog.t :=
  Watchdog.mk "./run_integrated_detection_system.sh" true (-1) None true None 1 1
    [Watchdog.ev_popen ["./run_integrated_detection_system.sh"; "--camera-only"]%string
       (Some 100%Z)].

(** The supervisor holding a child that ignores SIGTERM. *)
Definition holding : Watchdog.t :=
  Watchdog.mk "./run_integrated_detection_system.sh" true 5 None true
    (Some (Watchdog.mkPopen Scenario.stubborn None 0)) 1 1
    [Watchdog.ev_popen ["./run_integrated_detection_system.sh"; "--camera-only"]%string
       (Some 200%Z)].

(** A dog whose box cannot be converted, and a frame showing it next to
    a person and a car. *)
Definition stray : Detection.RawDetection Z :=
  Detection.mkRaw 18%Z 1%Z (-1)%Z 2%Z 3%Z 4%Z.

Definition net_Detect_stray (frame : nat)
  : result unit (list (Detection.RawDetection Z)) :=
  Ok [stray; person; Scenario.car].

(** A child that three polls find running before it is found exited. *)
Definition slow_child (n : nat) : Watchdog.Child :=
  Watchdog.mkChild (100 + Z.of_nat n) (Some 3%nat) 1 (Ok tt) (Ok 1%Z) (Ok tt) (Ok 1%Z).

(** The first [Popen] call fails, the later ones return such children. *)
Definition flaky_slow_spawns (n : nat) (cmd : list string)
  : result Watchdog.exn Watchdog.Child :=
  match n with
  | O => Raise Watchdog.OSError
  | S _ => Ok (slow_child n)
  end.

(** [--restart-delay -1 --max-restarts 2] *)
Definition hasty : Watchdog.t :=
  Watchdog.init "./run_integrated_detection_system.sh" true (-1) (Some 2%Z).

(** The supervisor after its first child has exited, about to wait five
    seconds before the next start. *)
Definition waiting : Watchdog.t :=
  Watchdog.mk "./run_integrated_detection_system.sh" true 5 None true None 1 1
    [Watchdog.ev_popen ["./run_integrated_detection_system.sh"; "--camera-only"]%string
       (Some 100%Z)].

(** Every [Popen] call returns a child that ignores SIGTERM. *)
Definition stubborn_spawns (n : nat) (cmd : list string)
  : result Watchdog.exn Watchdog.Child := Ok Scenario.stubborn.

End Cases.

(** * The embedding evaluated on small inputs *)

Example json_dumps_danger_level :
  Detection.json_dumps [("danger_level"%string, 50%Z)] =
    ("{" ++ Detection.dquote ++ "danger_level" ++ Detection.dquote ++ ": 50}")%string.
Proof. reflexivity. Qed.

Example encode_utf8_danger_level :
  Detection.encode_utf8 (Detection.json_dumps [("danger_level"%string, 0%Z)]) =
    Detection.wire_danger_0.
Proof. reflexivity. Qed.

Example lower_label : Detection.lower "Traffic Light" = "traffic light"%string.
Proof. reflexivity. Qed.

Example vehicle_classes_filter :
  Detection.dict_mem (Detection.lower "Car") Detection.VEHICLE_CLASSES = true /\
  Detection.dict_mem (Detection.lower "dog") Detection.VEHICLE_CLASSES = false.
Proof. split; reflexivity. Qed.

(** A detection of a class outside the allow-list is dropped, one inside
    is kept with its truncated box. *)
Example detect_filters_classes :
  Detection.jetson_object_detection
    (fun _ : nat => Ok [Detection.mkRaw 18%Z 1%Z 1%Z 2%Z 3%Z 4%Z; Scenario.car])
    Scenario.net_GetClassDesc Scenario.int_of_float 7%nat =
    [Detection.mkDetection [10; 20; 110; 220]%Z "car" 1%Z].
Proof. reflexivity. Qed.

(** A third frame submitted while two wait is dropped. *)
Example third_submit_dropped :
  PyQueue.items
    (Detection.rgb_queue
       (Scenario.exec [Detection.Submit 1%nat; Detection.Submit 2%nat;
                       Detection.Submit 3%nat] Scenario.processor0)) = [1%nat; 2%nat].
Proof. reflexivity. Qed.

(** A start that is always refused is still attempted when the cap is 0;
    a child that exits at once is started once under a cap of 0 or 1. *)
Example first_start_under_zero_cap :
  option_map (fun w => (Watchdog.starts (Watchdog.trace w), Watchdog.restart_count w))
    (Watchdog.run Scenario.always_spawns 2 (Scenario.watchdog0 (Some 0%Z)))
    = Some (1%nat, 1%Z).
Proof. vm_compute. reflexivity. Qed.

Example flaky_run_trace :
  option_map (fun w => Watchdog.trace w)
    (Watchdog.run Scenario.flaky_spawns 4 (Scenario.watchdog0 (Some 2%Z)))
    = Some [Watchdog.ev_popen ["./run_integrated_detection_system.sh"; "--camera-only"]%string None;
            Watchdog.ev_sleep 5000;
            Watchdog.ev_popen ["./run_integrated_detection_system.sh"; "--camera-only"]%string
              (Some 101%Z);
            Watchdog.ev_sleep 5000;
            Watchdog.ev_popen ["./run_integrated_detection_system.sh"; "--camera-only"]%string
              (Some 102%Z)].
Proof. vm_compute. reflexivity. Qed.

(** A running child is polled once per iteration with half a second of
    sleep in between. *)
Example long_lived_child :
  match Watchdog.run_loop
          (fun n cmd => Ok Scenario.stubborn) 3 (Scenario.watchdog0 None) with
  | Watchdog.Looping w =>
      Watchdog.restart_count w = 1%Z /\
      option_map Watchdog.polled (Watchdog.process w) = Some 3%nat /\
      Watchdog.trace w =
        [Watchdog.ev_popen ["./run_integrated_detection_system.sh"; "--camera-only"]%string
           (Some 200%Z);
         Watchdog.ev_sleep 500; Watchdog.ev_sleep 500; Watchdog.ev_sleep 500]
  | Watchdog.Exited _ => False
  end.
Proof. vm_compute. repeat split; reflexivity. Qed.

(** * Properties of the detection pipeline *)

Section PipelineProperties.

Variables Frame float error : Type.
Variable net_Detect : Frame -> result error (list (Detection.RawDetection float)).
Variable net_GetClassDesc : Z -> result error string.
Variable int_of_float : float -> result error Z.

Local Abbreviation FP := (Detection.FrameProcessor Frame float).
Local Abbreviation detect :=
  (Detection.jetson_object_detection net_Detect net_GetClassDesc int_of_float).
Local Abbreviation worker_iter :=
  (Detection.detection_worker_iter net_Detect net_GetClassDesc int_of_float).
Local Abbreviation step := (Detection.step net_Detect net_GetClassDesc int_of_float).
Local Abbreviation exec := (Detection.exec net_Detect net_GetClassDesc int_of_float).
Local Abbreviation started := (Detection.start (Detection.FrameProcessor_init Frame float)).
Local Abbreviation bounded := (@Detection.bounded Frame float).

Lemma full_spec (A : Type) (q : PyQueue.t A) :
  PyQueue.maxsize q = 2%nat ->
  PyQueue.full q = (2 <=? PyQueue.qsize q)%nat.
Proof.
  intros Hm. unfold PyQueue.full. rewrite Hm. reflexivity.
Qed.

Lemma add_rgb_frame_bounded (frame : Frame) (p : FP) :
  bounded p -> bounded (fst (Detection.add_rgb_frame frame p)).
Proof.
  intros (Hm & Hs & Hm' & Hs').
  unfold Detection.add_rgb_frame, PyQueue.put_nowait.
  rewrite (full_spec _ Hm).
  destruct (Nat.leb_spec 2 (PyQueue.qsize (Detection.rgb_queue p))) as [Hfull | Hroom];
    simpl.
  - repeat split; assumption.
  - repeat split; try assumption.
    unfold PyQueue.qsize in *. simpl. rewrite length_app. simpl. lia.
Qed.

Lemma worker_iter_bounded (p : FP) :
  bounded p -> bounded (fst (worker_iter p)).
Proof.
  intros (Hm & Hs & Hm' & Hs').
  unfold Detection.detection_worker_iter, Detection.detection_worker_try,
    PyQueue.get_timeout, PyQueue.get_nowait.
  destruct (PyQueue.items (Detection.rgb_queue p)) as [| f rest] eqn:Hitems; simpl.
  - repeat split; assumption.
  - assert (Hrest : (List.length rest <= 2)%nat).
    { unfold PyQueue.qsize in Hs. rewrite Hitems in Hs. simpl in Hs. lia. }
    rewrite (full_spec _ Hm').
    destruct (Nat.leb_spec 2 (PyQueue.qsize (Detection.result_queue p)))
      as [Hfull | Hroom]; simpl.
    + repeat split; assumption.
    + repeat split; try assumption.
      unfold PyQueue.qsize in *. simpl. rewrite length_app. simpl. lia.
Qed.

Lemma get_latest_detection_bounded (p : FP) :
  bounded p -> bounded (snd (Detection.get_latest_detection p)).
Proof.
  intros (Hm & Hs & Hm' & Hs').
  unfold Detection.get_latest_detection, PyQueue.get_nowait.
  destruct (PyQueue.items (Detection.result_queue p)) as [| r rest] eqn:Hitems; simpl.
  - repeat split; assumption.
  - repeat split; try assumption.
    unfold PyQueue.qsize in *. rewrite Hitems in Hs'. simpl in *. lia.
Qed.

Lemma step_bounded (o : Detection.op Frame) (p : FP) :
  bounded p -> bounded (step o p).
Proof.
  destruct o; simpl.
  - apply add_rgb_frame_bounded.
  - apply worker_iter_bounded.
  - apply get_latest_detection_bounded.
Qed.

Lemma exec_bounded (ops : list (Detection.op Frame)) :
  forall p, bounded p -> bounded (exec ops p).
Proof.
  induction ops as [| o ops IH]; intros p Hp; simpl.
  - exact Hp.
  - apply IH. apply step_bounded. exact Hp.
Qed.

Lemma started_bounded : bounded started.
Proof.
  unfold bounded. simpl. repeat split; auto.
Qed.

(** C7 (backpressure). [add_rgb_frame] returns normally from every state;
    in every state reachable by submits, worker steps and reads the frame
    queue holds at most 2 frames, and a submit on a queue holding 2 frames
    leaves the whole processor as it was. *)
Theorem add_rgb_frame_backpressure
  (q : FP) (ops : list (Detection.op Frame)) (frame : Frame) :
  snd (Detection.add_rgb_frame frame q) = Ok tt /\
  let p := exec ops started in
  (PyQueue.qsize (Detection.rgb_queue p) <= 2)%nat /\
  (PyQueue.qsize (Detection.rgb_queue p) = 2%nat ->
   Detection.add_rgb_frame frame p = (p, Ok tt)).
Proof.
  split.
  - unfold Detection.add_rgb_frame.
    destruct (PyQueue.put_nowait frame (Detection.rgb_queue q)); reflexivity.
  - intros p.
    destruct (exec_bounded ops started_bounded) as (Hm & Hs & _).
    fold p in Hm, Hs. split; [exact Hs |].
    intros Hfull.
    unfold Detection.add_rgb_frame, PyQueue.put_nowait.
    rewrite (full_spec _ Hm), Hfull. reflexivity.
Qed.

(** Whatever the [try] of [jetson_object_detection] raises, the function
    returns the empty list. *)
Lemma detect_raise (frame : Frame) (e : error) :
  Detection.jetson_object_detection_try net_Detect net_GetClassDesc int_of_float frame
    = Raise e ->
  detect frame = [].
Proof.
  intros Hraise. unfold Detection.jetson_object_detection.
  rewrite Hraise. reflexivity.
Qed.

(** No iteration of the worker loop lets an exception out, and none
    touches the [running] flag. *)
Lemma worker_iter_returns (p : FP) :
  snd (worker_iter p) = Ok tt /\
  Detection.running (fst (worker_iter p)) = Detection.running p.
Proof.
  unfold Detection.detection_worker_iter, Detection.detection_worker_try,
    PyQueue.get_timeout, PyQueue.get_nowait.
  destruct (PyQueue.items (Detection.rgb_queue p)) as [| f rest]; simpl.
  - split; reflexivity.
  - destruct (PyQueue.full (Detection.result_queue p)); simpl; split; reflexivity.
Qed.

(** An iteration that finds a frame queued takes it, runs the detection on
    it and appends the result unless the result queue is full. *)
Lemma worker_iter_takes (f : Frame) (rest : list Frame) (p : FP) :
  PyQueue.items (Detection.rgb_queue p) = f :: rest ->
  PyQueue.items (Detection.rgb_queue (fst (worker_iter p))) = rest /\
  PyQueue.items (Detection.result_queue (fst (worker_iter p))) =
    if PyQueue.full (Detection.result_queue p)
    then PyQueue.items (Detection.result_queue p)
    else PyQueue.items (Detection.result_queue p) ++ [detect f].
Proof.
  intros Hitems.
  unfold Detection.detection_worker_iter, Detection.detection_worker_try,
    PyQueue.get_timeout, PyQueue.get_nowait.
  rewrite Hitems.
  destruct (PyQueue.full (Detection.result_queue p)); simpl; split; reflexivity.
Qed.

(** C6 (classifier-failure isolation). When [net.Detect] raises on a
    frame, [jetson_object_detection] returns the empty detection list for
    it. The worker iteration that takes this frame ends normally, leaves
    [running] as it was and queues the empty list (room permitting); the
    iteration after it takes the next queued frame and queues its
    detections in the same way. *)
Theorem classifier_failure_isolated
  (frame next : Frame) (rest : list Frame) (e : error) (p : FP) :
  net_Detect frame = Raise e ->
  PyQueue.items (Detection.rgb_queue p) = frame :: next :: rest ->
  detect frame = [] /\
  let p1 := fst (worker_iter p) in
  let p2 := fst (worker_iter p1) in
  snd (worker_iter p) = Ok tt /\
  Detection.running p1 = Detection.running p /\
  PyQueue.items (Detection.rgb_queue p1) = next :: rest /\
  PyQueue.items (Detection.result_queue p1) =
    (if PyQueue.full (Detection.result_queue p)
     then PyQueue.items (Detection.result_queue p)
     else PyQueue.items (Detection.result_queue p) ++ [[]]) /\
  snd (worker_iter p1) = Ok tt /\
  Detection.running p2 = Detection.running p /\
  PyQueue.items (Detection.rgb_queue p2) = rest /\
  PyQueue.items (Detection.result_queue p2) =
    (if PyQueue.full (Detection.result_queue p1)
     then PyQueue.items (Detection.result_queue p1)
     else PyQueue.items (Detection.result_queue p1) ++ [detect next]).
Proof.
  intros Hraise Hitems.
  assert (Hempty : detect frame = []).
  { apply detect_raise with (e := e).
    unfold Detection.jetson_object_detection_try. rewrite Hraise. reflexivity. }
  split; [exact Hempty |].
  intros p1 p2.
  destruct (worker_iter_returns p) as [Hret1 Hrun1].
  destruct (worker_iter_takes _ Hitems) as [Hq1 Hr1].
  fold p1 in Hrun1, Hq1, Hr1. rewrite Hempty in Hr1.
  destruct (worker_iter_returns p1) as [Hret2 Hrun2].
  destruct (worker_iter_takes _ Hq1) as [Hq2 Hr2].
  fold p2 in Hrun2, Hq2, Hr2.
  repeat split; try assumption.
  congruence.
Qed.

(** The result queue is first-in first-out: after two frames were
    processed, one read returns the detections of the first. *)
Lemma read_after_two_results (f1 f2 : Frame) :
  let p := exec [Detection.Submit f1; Detection.Submit f2;
                 Detection.WorkerStep; Detection.WorkerStep] started in
  PyQueue.items (Detection.result_queue p) = [detect f1; detect f2] /\
  fst (Detection.get_latest_detection p) = Some (detect f1).
Proof.
  split; reflexivity.
Qed.

(** With both result slots taken, the result of a third frame is the one
    that is dropped. *)
Lemma read_after_three_results (f1 f2 f3 : Frame) :
  let p := exec [Detection.Submit f1; Detection.Submit f2; Detection.WorkerStep;
                 Detection.Submit f3; Detection.WorkerStep; Detection.WorkerStep]
                started in
  PyQueue.items (Detection.rgb_queue p) = [] /\
  PyQueue.items (Detection.result_queue p) = [detect f1; detect f2] /\
  fst (Detection.get_latest_detection p) = Some (detect f1).
Proof.
  repeat split; reflexivity.
Qed.

End PipelineProperties.

Lemma add_rgb_frame_backpressure_witness :
  let p := Scenario.exec [Detection.Submit 1%nat; Detection.Submit 2%nat]
             Scenario.processor0 in
  PyQueue.qsize (Detection.rgb_queue p) = 2%nat /\
  Detection.add_rgb_frame 3%nat p = (p, Ok tt).
Proof.
  split; [reflexivity |].
  apply (add_rgb_frame_backpressure Scenario.net_Detect Scenario.net_GetClassDesc
           Scenario.int_of_float Scenario.processor0
           [Detection.Submit 1%nat; Detection.Submit 2%nat] 3%nat).
  reflexivity.
Defined.

Lemma classifier_failure_isolated_witness :
  let p := Scenario.exec [Detection.Submit 0%nat; Detection.Submit 2%nat]
             Scenario.processor0 in
  Scenario.detect 0%nat = [] /\
  PyQueue.items (Detection.result_queue (fst (Scenario.worker_iter (fst (Scenario.worker_iter p)))))
    = [[]; Scenario.detect 2%nat].
Proof.
  pose proof (@classifier_failure_isolated _ _ _ Scenario.net_Detect
                Scenario.net_GetClassDesc Scenario.int_of_float
                0%nat 2%nat [] tt
                (Scenario.exec [Detection.Submit 0%nat; Detection.Submit 2%nat]
                   Scenario.processor0)
                eq_refl eq_refl) as H.
  split; [exact (proj1 H) | reflexivity].
Defined.

(** C1 (latest-wins), evaluated. Frame 1 (nothing in it) and then frame 2
    (a car) are processed before the main loop reads: the read returns the
    empty result of frame 1, not the car of frame 2. When a third result
    completes before the read it is the one discarded, and the read still
    returns the oldest. *)
Theorem get_latest_detection_returns_oldest :
  let car := Detection.mkDetection [10; 20; 110; 220]%Z "car" 1%Z in
  Scenario.detect 1%nat = [] /\
  Scenario.detect 2%nat = [car] /\
  Scenario.detect 3%nat = [car] /\
  fst (Detection.get_latest_detection
         (Scenario.exec [Detection.Submit 1%nat; Detection.Submit 2%nat;
                         Detection.WorkerStep; Detection.WorkerStep]
            Scenario.processor0)) = Some [] /\
  fst (Detection.get_latest_detection
         (Scenario.exec [Detection.Submit 1%nat; Detection.Submit 2%nat;
                         Detection.WorkerStep; Detection.Submit 3%nat;
                         Detection.WorkerStep; Detection.WorkerStep]
            Scenario.processor0)) = Some [].
Proof.
  intros car.
  pose proof (read_after_two_results Scenario.net_Detect Scenario.net_GetClassDesc
                Scenario.int_of_float 1%nat 2%nat) as [_ H2].
  pose proof (read_after_three_results Scenario.net_Detect Scenario.net_GetClassDesc
                Scenario.int_of_float 1%nat 2%nat 3%nat) as [_ [_ H3]].
  repeat split; try reflexivity; assumption.
Qed.

(** * Properties of the alert controller and of the telemetry publisher *)

Section AlertProperties.

Import Detection.

(** Once playing, a PRESENT cycle calls nothing. *)
Lemma play_alert_sound_holds (g : Globals) :
  is_chiller (current_playing_sound g) = true ->
  play_alert_sound PRESENT g = (g, []).
Proof.
  intros Hplaying. unfold play_alert_sound, PRESENT.
  rewrite Hplaying. destruct (sound_enabled g); reflexivity.
Qed.

(** While silent, an ABSENT cycle calls nothing. *)
Lemma play_alert_sound_rests (g : Globals) :
  current_playing_sound g = None ->
  play_alert_sound ABSENT g = (g, []).
Proof.
  intros Hsilent. unfold play_alert_sound, ABSENT.
  rewrite Hsilent. destruct (sound_enabled g); reflexivity.
Qed.

(** What the actuator memory is after a cycle of an enabled controller. *)
Lemma play_alert_sound_memory (has_detections : bool) (g : Globals) :
  sound_enabled g = true ->
  current_playing_sound (fst (play_alert_sound has_detections g)) =
    if has_detections then
      (if is_chiller (current_playing_sound g)
       then current_playing_sound g else Some "chiller"%string)
    else None.
Proof.
  intros Hon. unfold play_alert_sound. rewrite Hon. simpl.
  destruct has_detections.
  - destruct (is_chiller (current_playing_sound g)); reflexivity.
  - destruct (current_playing_sound g) eqn:Hp; simpl; [reflexivity | exact Hp].
Qed.

(** Repeating a cycle with the same danger state changes nothing and
    calls nothing. *)
Lemma play_alert_sound_again (has_detections : bool) (g : Globals) :
  play_alert_sound has_detections (fst (play_alert_sound has_detections g)) =
    (fst (play_alert_sound has_detections g), []).
Proof.
  unfold play_alert_sound.
  destruct g as [snd_on emu_on playing]; simpl.
  destruct snd_on; simpl; [| reflexivity].
  destruct has_detections.
  - destruct (is_chiller playing) eqn:Hp; simpl.
    + rewrite Hp. reflexivity.
    + reflexivity.
  - destruct playing; reflexivity.
Qed.

(** C2 (edge-triggering), amended. With the sound system enabled and
    nothing playing, the danger sequence ABSENT, PRESENT, PRESENT,
    PRESENT, ABSENT makes the mixer receive: nothing in cycle 1;
    [mixer.stop()] then [play(loops=-1)] in cycle 2; nothing in cycles 3
    and 4; [mixer.stop()] in cycle 5. That is one start call and two stop
    calls, and nothing is playing afterwards. In general a PRESENT cycle
    of a controller that is playing calls nothing, and an ABSENT cycle of an
    enabled controller that is playing calls [mixer.stop()] in that very
    cycle and marks the actuator inactive. *)
Theorem edge_triggered_alert (g : Globals) :
  sound_enabled g = true ->
  current_playing_sound g = None ->
  let r := alert_cycles [ABSENT; PRESENT; PRESENT; PRESENT; ABSENT] g in
  snd r = [[]; [mixer_stop; sound_play (-1)]; []; []; [mixer_stop]] /\
  calls is_play (snd r) = 1%nat /\
  calls is_stop (snd r) = 2%nat /\
  current_playing_sound (fst r) = None /\
  (forall g' : Globals,
      is_chiller (current_playing_sound g') = true ->
      play_alert_sound PRESENT g' = (g', [])) /\
  (forall (g' : Globals) (name : string),
      sound_enabled g' = true -> current_playing_sound g' = Some name ->
      play_alert_sound ABSENT g' = (set_playing None g', [mixer_stop])).
Proof.
  destruct g as [snd_on emu_on playing]; simpl.
  intros -> ->. repeat split.
  - exact play_alert_sound_holds.
  - intros g' name Hon Hplaying. unfold play_alert_sound, ABSENT.
    rewrite Hon, Hplaying. reflexivity.
Qed.

Lemma edge_triggered_alert_witness :
  calls is_play
    (snd (alert_cycles [ABSENT; PRESENT; PRESENT; PRESENT; ABSENT] Scenario.enabled))
    = 1%nat.
Proof.
  apply (@edge_triggered_alert Scenario.enabled eq_refl eq_refl).
Defined.

(** C2 as stated fails: over the five cycles the mixer receives two stop
    calls, the first of them on the rising edge. *)
Lemma edge_triggered_alert_two_stops :
  calls is_stop
    (snd (alert_cycles [ABSENT; PRESENT; PRESENT; PRESENT; ABSENT] Scenario.enabled))
    <> 1%nat.
Proof.
  vm_compute. discriminate.
Qed.

(** Whatever the flags, nothing but the two payloads is ever handed to
    the socket. *)
Lemma telemetry_values (has_detections : bool) (g : Globals) (e : event) :
  In e (send_to_emulator has_detections g) ->
  e = sendto wire_danger_50 "127.0.0.1" 5555 \/
  e = sendto wire_danger_0 "127.0.0.1" 5555.
Proof.
  unfold send_to_emulator.
  destruct (emulator_enabled g); simpl; [| tauto].
  destruct has_detections; intros [<- | []]; [left | right]; reflexivity.
Qed.

(** C5 (telemetry format), amended. With emulator communication enabled,
    a call of [send_to_emulator] makes exactly one [sendto] call, to the
    configured address, whose payload is the text [{"danger_level": 50}]
    when danger is PRESENT and [{"danger_level": 0}] when it is ABSENT.
    With emulator communication disabled a call sends nothing. In any
    configuration nothing but these two datagrams is ever sent. *)
Theorem telemetry_format (has_detections : bool) (g : Globals) :
  emulator_enabled g = true ->
  send_to_emulator has_detections g =
    [sendto (if has_detections then wire_danger_50 else wire_danger_0)
       "127.0.0.1" 5555] /\
  (forall (h : bool) (g' : Globals),
      emulator_enabled g' = false -> send_to_emulator h g' = []) /\
  (forall (h : bool) (g' : Globals) (e : event),
      In e (send_to_emulator h g') ->
      e = sendto wire_danger_50 "127.0.0.1" 5555 \/
      e = sendto wire_danger_0 "127.0.0.1" 5555).
Proof.
  intros Hon. repeat split.
  - unfold send_to_emulator. rewrite Hon.
    destruct has_detections; reflexivity.
  - intros h g' Hoff. unfold send_to_emulator. rewrite Hoff. reflexivity.
  - exact telemetry_values.
Qed.

Lemma telemetry_format_witness :
  send_to_emulator PRESENT Scenario.enabled = [sendto wire_danger_50 "127.0.0.1" 5555] /\
  send_to_emulator ABSENT Scenario.enabled = [sendto wire_danger_0 "127.0.0.1" 5555].
Proof.
  split.
  - apply (proj1 (telemetry_format PRESENT Scenario.enabled eq_refl)).
  - apply (proj1 (telemetry_format ABSENT Scenario.enabled eq_refl)).
Defined.

(** C5 as stated fails: with emulator communication disabled a call
    sends no datagram. *)
Lemma telemetry_disabled_sends_nothing :
  List.length (send_to_emulator PRESENT Scenario.muted) <> 1%nat.
Proof.
  vm_compute. discriminate.
Qed.

End AlertProperties.

(** * Properties of the main loop *)

Section MainLoopProperties.

Import Detection.

Variables Frame float : Type.

Local Abbreviation FP := (FrameProcessor Frame float).
Local Abbreviation State := (MainState Frame float).

Lemma add_rgb_frame_result_queue (frame : Frame) (p : FP) :
  result_queue (fst (add_rgb_frame frame p)) = result_queue p.
Proof.
  unfold add_rgb_frame.
  destruct (PyQueue.put_nowait frame (rgb_queue p)); reflexivity.
Qed.

Lemma submitted_result_queue (rgb_in : option Frame) (p : FP) :
  result_queue (submitted rgb_in p) = result_queue p.
Proof.
  destruct rgb_in; simpl; [apply add_rgb_frame_result_queue | reflexivity].
Qed.

Lemma get_latest_detection_empty (p : FP) :
  PyQueue.items (result_queue p) = [] ->
  get_latest_detection p = (None, p).
Proof.
  intros Hempty. unfold get_latest_detection, PyQueue.get_nowait.
  rewrite Hempty. reflexivity.
Qed.

Lemma play_alert_sound_flags (has_detections : bool) (g : Globals) :
  sound_enabled (fst (play_alert_sound has_detections g)) = sound_enabled g /\
  emulator_enabled (fst (play_alert_sound has_detections g)) = emulator_enabled g.
Proof.
  unfold play_alert_sound.
  destruct (sound_enabled g) eqn:Hs; simpl; [| auto].
  destruct has_detections.
  - destruct (is_chiller (current_playing_sound g)); simpl; auto.
  - destruct (current_playing_sound g); simpl; auto.
Qed.

Lemma play_alert_sound_no_send (has_detections : bool) (g : Globals) :
  filter is_send (snd (play_alert_sound has_detections g)) = [].
Proof.
  unfold play_alert_sound.
  destruct (sound_enabled g); simpl; [| reflexivity].
  destruct has_detections.
  - destruct (is_chiller (current_playing_sound g)); reflexivity.
  - destruct (current_playing_sound g); reflexivity.
Qed.

Lemma send_to_emulator_all_send (has_detections : bool) (g : Globals) :
  filter is_send (send_to_emulator has_detections g) = send_to_emulator has_detections g.
Proof.
  unfold send_to_emulator. destruct (emulator_enabled g); reflexivity.
Qed.

(** What a pass does, in terms of the danger state it computes. *)
Lemma main_cycle_unfold (rgb_in : option Frame) (st : State) :
  let read := get_latest_detection (submitted rgb_in (processor st)) in
  let current := match fst read with
                 | Some d => d
                 | None => current_detections st
                 end in
  let has_detections := (0 <? List.length current)%nat in
  let g := globals st in
  main_cycle rgb_in st =
    (mkMain (snd read) current
       (if sound_enabled g then fst (play_alert_sound has_detections g) else g),
     (if emulator_enabled g then send_to_emulator has_detections g else []) ++
     (if sound_enabled g then snd (play_alert_sound has_detections g) else [])).
Proof.
  unfold main_cycle.
  destruct (get_latest_detection (submitted rgb_in (processor st))) as [latest p2].
  simpl.
  destruct (sound_enabled (globals st)); [| reflexivity].
  destruct (play_alert_sound _ (globals st)); reflexivity.
Qed.

Lemma main_cycle_settles (rgb_in : option Frame) (st : State) :
  settled (fst (main_cycle rgb_in st)).
Proof.
  rewrite main_cycle_unfold. unfold settled. simpl.
  destruct (sound_enabled (globals st)) eqn:Hs.
  - intros _. apply play_alert_sound_again.
  - intros Hon. congruence.
Qed.

Lemma main_cycle_sends (rgb_in : option Frame) (st : State) :
  filter is_send (snd (main_cycle rgb_in st)) =
    send_to_emulator (0 <? List.length (current_detections (fst (main_cycle rgb_in st))))%nat
      (globals st).
Proof.
  rewrite main_cycle_unfold. simpl. rewrite filter_app.
  destruct (sound_enabled (globals st));
    [rewrite play_alert_sound_no_send | simpl]; rewrite app_nil_r;
    (destruct (emulator_enabled (globals st)) eqn:He;
     [apply send_to_emulator_all_send
     | unfold send_to_emulator; rewrite He; reflexivity]).
Qed.

(** A pass that reads no new result from a settled state keeps the
    detections and the alert state, and only sends the telemetry of the
    danger state it already had. *)
Lemma main_cycle_idle (rgb_in : option Frame) (st : State) :
  settled st ->
  PyQueue.items (result_queue (processor st)) = [] ->
  main_cycle rgb_in st =
    (mkMain (submitted rgb_in (processor st)) (current_detections st) (globals st),
     send_to_emulator (0 <? List.length (current_detections st))%nat (globals st)).
Proof.
  intros Hsettled Hempty.
  rewrite main_cycle_unfold.
  rewrite get_latest_detection_empty
    by (rewrite submitted_result_queue; exact Hempty).
  simpl. unfold settled in Hsettled.
  destruct (sound_enabled (globals st)) eqn:Hs.
  - rewrite (Hsettled eq_refl). simpl. rewrite app_nil_r.
    destruct (emulator_enabled (globals st)) eqn:He; [reflexivity |].
    unfold send_to_emulator. rewrite He. reflexivity.
  - rewrite app_nil_r.
    destruct (emulator_enabled (globals st)) eqn:He; [reflexivity |].
    unfold send_to_emulator. rewrite He. reflexivity.
Qed.

(** Any number of idle passes: same detections, same alert state, the
    same telemetry in every pass. *)
Lemma main_cycles_idle (inputs : list (option Frame)) :
  forall st : State,
    settled st ->
    PyQueue.items (result_queue (processor st)) = [] ->
    current_detections (fst (main_cycles inputs st)) = current_detections st /\
    globals (fst (main_cycles inputs st)) = globals st /\
    Forall (fun ev => ev = send_to_emulator
                             (0 <? List.length (current_detections st))%nat (globals st))
           (snd (main_cycles inputs st)).
Proof.
  induction inputs as [| rgb_in rest IH]; intros st Hsettled Hempty; simpl.
  - repeat split; constructor.
  - rewrite (main_cycle_idle rgb_in Hsettled Hempty).
    set (st1 := mkMain (submitted rgb_in (processor st)) (current_detections st)
                  (globals st)).
    destruct (IH st1) as (Hcur & Hg & Hev).
    + exact Hsettled.
    + simpl. rewrite submitted_result_queue. exact Hempty.
    + destruct (main_cycles rest st1) as [st2 evs]. simpl in *.
      repeat split; try assumption.
      constructor; [reflexivity | exact Hev].
Qed.

(** C10 (latching). Let a pass of the main loop end in state [st1] and
    let the next pass find the result queue empty, whatever the worker did
    to the frame queue meanwhile. Then that pass keeps
    [current_detections] and the alert variables, calls the mixer not at
    all and sends exactly the telemetry the previous pass sent. If
    moreover [current_detections] is non-empty, then through any number of
    further passes without a new result it stays so, the chiller sound
    stays marked as playing (sound enabled) and every pass sends the
    datagram [{"danger_level": 50}] (emulator enabled). *)
Theorem main_loop_latches
  (st : State) (rgb_in rgb_in' : option Frame) (p' : FP)
  (inputs : list (option Frame)) :
  let st1 := fst (main_cycle rgb_in st) in
  let ev1 := snd (main_cycle rgb_in st) in
  let idle := mkMain p' (current_detections st1) (globals st1) in
  PyQueue.items (result_queue p') = [] ->
  (fst (get_latest_detection (submitted rgb_in' p')) = None /\
   current_detections (fst (main_cycle rgb_in' idle)) = current_detections st1 /\
   globals (fst (main_cycle rgb_in' idle)) = globals st1 /\
   snd (main_cycle rgb_in' idle) = filter is_send ev1) /\
  (current_detections st1 <> [] ->
   current_detections (fst (main_cycles inputs idle)) = current_detections st1 /\
   globals (fst (main_cycles inputs idle)) = globals st1 /\
   (sound_enabled (globals st1) = true ->
    current_playing_sound (globals st1) = Some "chiller"%string) /\
   Forall (fun ev => ev = if emulator_enabled (globals st1)
                          then [sendto wire_danger_50 "127.0.0.1" 5555] else [])
          (snd (main_cycles inputs idle))).
Proof.
  intros st1 ev1 idle Hempty.
  assert (Hsettled : settled idle).
  { pose proof (main_cycle_settles rgb_in st) as H. exact H. }
  assert (Hflags : sound_enabled (globals st1) = sound_enabled (globals st) /\
                   emulator_enabled (globals st1) = emulator_enabled (globals st)).
  { unfold st1. rewrite main_cycle_unfold. simpl.
    destruct (play_alert_sound_flags
                (0 <? List.length
                        match fst (get_latest_detection
                                     (submitted rgb_in (processor st))) with
                        | Some d => d
                        | None => current_detections st
                        end)%nat (globals st)) as [Hs He].
    destruct (sound_enabled (globals st)) eqn:Hon; simpl; split;
      first [assumption | reflexivity]. }
  destruct Hflags as [Hsf Hef].
  split.
  - rewrite (main_cycle_idle rgb_in' Hsettled Hempty). simpl.
    repeat split.
    + rewrite get_latest_detection_empty
        by (rewrite submitted_result_queue; exact Hempty).
      reflexivity.
    + unfold ev1. rewrite main_cycle_sends. fold st1.
      unfold send_to_emulator. rewrite Hef. reflexivity.
  - intros Hpresent.
    destruct (main_cycles_idle inputs Hsettled Hempty) as (Hcur & Hg & Hev).
    simpl in Hcur, Hg, Hev.
    assert (Hhas : (0 <? List.length (current_detections st1))%nat = true).
    { destruct (current_detections st1); [congruence | reflexivity]. }
    rewrite Hhas in Hev.
    repeat split; try assumption.
    + intros Hon.
      pose proof (main_cycle_settles rgb_in st) as Hs1. fold st1 in Hs1.
      unfold settled in Hs1. specialize (Hs1 Hon). rewrite Hhas in Hs1.
      pose proof (play_alert_sound_memory true (globals st1) Hon) as Hmem.
      rewrite Hs1 in Hmem. simpl in Hmem.
      destruct (current_playing_sound (globals st1)) as [name |] eqn:Hp;
        unfold is_chiller in Hmem.
      * destruct (String.eqb_spec name "chiller"); [congruence | exact Hmem].
      * discriminate.
    + eapply Forall_impl; [| exact Hev].
      intros ev ->. unfold send_to_emulator.
      destruct (emulator_enabled (globals st1)); reflexivity.
Qed.

End MainLoopProperties.

Lemma main_loop_latches_witness :
  let st := Detection.mkMain
              (Scenario.exec [Detection.Submit 2%nat; Detection.WorkerStep]
                 Scenario.processor0) [] Scenario.enabled in
  let st1 := fst (Detection.main_cycle (Some 3%nat) st) in
  PyQueue.items (Detection.result_queue (Detection.processor st1)) = [] /\
  Detection.current_detections st1 <> [] /\
  Forall (fun ev => ev = [Detection.sendto Detection.wire_danger_50 "127.0.0.1" 5555])
    (snd (Detection.main_cycles [Some 4%nat; None] st1)).
Proof.
  intros st st1.
  split; [reflexivity |]. split; [discriminate |].
  apply (proj2 (@main_loop_latches _ _ st (Some 3%nat) None
                  (Detection.processor st1) [Some 4%nat; None] eq_refl)).
  discriminate.
Defined.

(** * Properties of the supervisor *)

Section SupervisorProperties.

Import Watchdog.

(** C3 ([should_restart]). It answers true exactly when the supervisor is
    running and either nothing was started yet, or no cap is set, or the
    number of starts is below the cap; so with nothing started yet and the
    supervisor running it answers true whatever the cap, 0 included. *)
Theorem should_restart_iff (w : t) :
  (should_restart w = true <->
   running w = true /\
   (restart_count w = 0 \/ max_restarts w = None \/
    exists m, max_restarts w = Some m /\ restart_count w < m))%Z /\
  (running w = true -> restart_count w = 0%Z -> should_restart w = true).
Proof.
  unfold should_restart. split.
  - destruct (running w); simpl.
    + destruct (Z.eqb_spec (restart_count w) 0) as [Hz | Hnz].
      * split; [intros _; split; [reflexivity | left; exact Hz] | reflexivity].
      * destruct (max_restarts w) as [m |].
        -- destruct (Z.geb_spec (restart_count w) m) as [Hge | Hlt].
           ++ split; [discriminate |].
              intros [_ [Hz | [Hnone | (m' & Hm & Hlt)]]];
                [contradiction | discriminate |].
              injection Hm as <-. lia.
           ++ split; [| reflexivity].
              intros _. split; [reflexivity |].
              right. right. exists m. split; [reflexivity | lia].
        -- split; [| reflexivity].
           intros _. split; [reflexivity | right; left; reflexivity].
    + split; [discriminate | intros [Hrun _]; discriminate].
  - intros -> ->. reflexivity.
Qed.

Lemma should_restart_iff_witness :
  should_restart (Scenario.watchdog0 (Some 0%Z)) = true.
Proof.
  apply (proj2 (should_restart_iff (Scenario.watchdog0 (Some 0%Z)))); reflexivity.
Defined.

Lemma stop_process_clears (w : t) : process (stop_process w) = None.
Proof.
  unfold stop_process.
  destruct (process w) as [h |] eqn:Hp; [| exact Hp].
  destruct (on_terminate (child h)); [| reflexivity].
  destruct (on_wait_grace (child h)) as [code | []]; try reflexivity.
  destruct (on_kill (child h)); reflexivity.
Qed.

Lemma stop_process_idle (w : t) : process w = None -> stop_process w = w.
Proof.
  intros Hp. unfold stop_process. rewrite Hp. reflexivity.
Qed.

(** C8 (graceful-then-forced stop), amended. [stop_process] does nothing
    when no child is running; it always ends with the handle released,
    and calling it again changes nothing. On a running child the first
    call made is [terminate()]. If that and the [wait(timeout=10)] after
    it return, these are the only two calls. If the wait times out,
    [kill()] and then an unbounded [wait()] follow. In both of these
    cases, where no call raises anything but the timeout, a [wait] has
    returned the exit status of the child when [stop_process] returns. *)
Theorem stop_process_graceful_then_forced (w : t) :
  (process w = None -> stop_process w = w) /\
  process (stop_process w) = None /\
  stop_process (stop_process w) = stop_process w /\
  forall h : Popen,
    process w = Some h ->
    let c := child h in
    (exists calls,
        trace (stop_process w) = trace w ++ ev_terminate (pid c) :: calls) /\
    (cooperates c = true ->
     trace (stop_process w) =
       trace w ++ [ev_terminate (pid c);
                   ev_wait (pid c) (Some 10%Z) (on_wait_grace c)]) /\
    (needs_kill c = true ->
     trace (stop_process w) =
       trace w ++ [ev_terminate (pid c);
                   ev_wait (pid c) (Some 10%Z) (Raise TimeoutExpired);
                   ev_kill (pid c);
                   ev_wait (pid c) None (on_wait c)]) /\
    (cooperates c = true \/ needs_kill c = true ->
     confirmed_dead (pid c) (trace (stop_process w)) = true).
Proof.
  split; [apply stop_process_idle |].
  split; [apply stop_process_clears |].
  split; [apply stop_process_idle, stop_process_clears |].
  intros h Hp c.
  unfold stop_process, cooperates, needs_kill, confirmed_dead.
  rewrite Hp. fold c.
  destruct (on_terminate c) as [[] | e1]; simpl.
  - destruct (on_wait_grace c) as [code | [| |]]; simpl.
    + repeat split.
      * eexists. rewrite <- app_assoc. reflexivity.
      * intros _. rewrite <- app_assoc. reflexivity.
      * discriminate.
      * intros _. rewrite existsb_app. simpl.
        rewrite Z.eqb_refl. apply orb_true_r.
    + destruct (on_kill c) as [[] | e3]; simpl.
      * repeat split.
        -- eexists. rewrite <- !app_assoc. reflexivity.
        -- discriminate.
        -- intros _. rewrite <- !app_assoc. reflexivity.
        -- intros [Hc | Hk]; [discriminate |].
           destruct (on_wait c) as [code | e4]; [| discriminate].
           rewrite existsb_app. simpl.
           rewrite Z.eqb_refl. apply orb_true_r.
      * repeat split; try discriminate.
        -- eexists. rewrite <- !app_assoc. reflexivity.
        -- intros [Hc | Hk]; discriminate.
    + repeat split; try discriminate.
      * eexists. rewrite <- app_assoc. reflexivity.
      * intros [Hc | Hk]; discriminate.
    + repeat split; try discriminate.
      * eexists. rewrite <- app_assoc. reflexivity.
      * intros [Hc | Hk]; discriminate.
  - repeat split; try discriminate.
    + eexists. reflexivity.
    + intros [Hc | Hk]; discriminate.
Qed.


Lemma stop_process_graceful_then_forced_witness :
  let w := set_process (Some (mkPopen Scenario.stubborn None 0))
             (Scenario.watchdog0 None) in
  trace (stop_process w) =
    [ev_terminate 200; ev_wait 200 (Some 10%Z) (Raise TimeoutExpired);
     ev_kill 200; ev_wait 200 None (Ok (-9)%Z)] /\
  confirmed_dead 200 (trace (stop_process w)) = true.
Proof.
  intros w.
  destruct (stop_process_graceful_then_forced w) as (_ & _ & _ & H).
  destruct (H (mkPopen Scenario.stubborn None 0) eq_refl) as (_ & _ & Hk & Hd).
  split; [exact (Hk eq_refl) | exact (Hd (or_intror eq_refl))].
Defined.

(** C8 as stated fails: when [terminate()] raises, [stop_process] returns
    with the handle released although no [wait] has seen the child exit. *)
Lemma stop_process_unconfirmed :
  let w := set_process (Some (mkPopen Scenario.unreachable None 0))
             (Scenario.watchdog0 None) in
  process (stop_process w) = None /\
  trace (stop_process w) = [ev_terminate 300] /\
  confirmed_dead 300 (trace (stop_process w)) = false.
Proof.
  repeat split; reflexivity.
Qed.

Section WithSpawn.

Variable spawn : nat -> list string -> result exn Child.

Lemma sleep_allowed (d : Z) : (0 <= d)%Z -> (seconds d <? 0)%Z = false.
Proof.
  intros Hd. unfold seconds. apply Z.ltb_ge. lia.
Qed.

(** An iteration that finds no child and may not restart leaves the loop. *)
Lemma run_iter_break (w : t) :
  process w = None -> should_restart w = false ->
  run_iter spawn w = (w, Break).
Proof.
  intros Hp Hno.
  unfold run_iter, run_try, ensure_started, mbind, gets.
  rewrite Hp, Hno. reflexivity.
Qed.

(** An iteration whose [Popen] call raises. *)
Lemma run_iter_failed_spawn (w : t) (e : exn) :
  process w = None -> should_restart w = true ->
  (0 <= restart_delay w)%Z ->
  spawn (popen_calls w) (build_command w) = Raise e ->
  run_iter spawn w =
    (called (ev_sleep (seconds (restart_delay w))) (attempted None w), Continue).
Proof.
  intros Hp Hyes Hd Hspawn.
  unfold run_iter, run_try, ensure_started, mbind, gets, lift, ret, modify.
  rewrite Hp, Hyes.
  unfold attempted, paused, time_sleep, start_process, build_command in *.
  destruct w as [sp co d m r p rc pc tr]; simpl in *.
  destruct (rc >? 0)%Z; simpl;
    rewrite ?(sleep_allowed Hd); simpl; rewrite Hspawn; reflexivity.
Qed.

(** An iteration whose [Popen] call returns a child that the first
    [poll()] already finds exited. *)
Lemma run_iter_short_lived (w : t) (c : Child) :
  process w = None -> should_restart w = true ->
  (0 <= restart_delay w)%Z ->
  spawn (popen_calls w) (build_command w) = Ok c ->
  lifetime c = Some 0%nat ->
  run_iter spawn w =
    (set_restart_count (restart_count w + 1)%Z (attempted (Some (pid c)) w), Continue).
Proof.
  intros Hp Hyes Hd Hspawn Hlife.
  unfold run_iter, run_try, ensure_started, mbind, gets, lift, ret, modify.
  rewrite Hp, Hyes.
  unfold attempted, paused, time_sleep, start_process, build_command in *.
  destruct w as [sp co d m r p rc pc tr]; simpl in *. subst p.
  destruct (rc >? 0)%Z; simpl;
    rewrite ?(sleep_allowed Hd); simpl; rewrite Hspawn; simpl;
    unfold monitor_process, poll; simpl; rewrite Hlife; reflexivity.
Qed.

Lemma starts_app (tr tr' : list event) :
  starts (tr ++ tr') = (starts tr + starts tr')%nat.
Proof.
  unfold starts. rewrite filter_app, length_app. reflexivity.
Qed.

Lemma failed_spawns_app (tr tr' : list event) :
  failed_spawns (tr ++ tr') = (failed_spawns tr + failed_spawns tr')%nat.
Proof.
  unfold failed_spawns. rewrite filter_app, length_app. reflexivity.
Qed.

Ltac tally :=
  rewrite ?starts_app, ?failed_spawns_app; unfold starts, failed_spawns; simpl; lia.

(** In every iteration, from every state, [restart_count] grows by the
    number of [Popen] calls that returned a child, and by nothing else. *)
Lemma run_iter_counts_starts (w : t) :
  (restart_count (fst (run_iter spawn w)) - restart_count w =
   Z.of_nat (starts (trace (fst (run_iter spawn w)))) - Z.of_nat (starts (trace w)))%Z.
Proof.
  unfold run_iter, run_try, ensure_started, mbind, gets, lift, ret, modify,
    time_sleep, start_process, monitor_process.
  destruct w as [sp co d m r p rc pc tr]; simpl.
  destruct p as [h |]; simpl.
  - destruct (poll h) as [h' [code |]]; simpl; tally.
  - destruct (should_restart _); simpl; [| tally].
    destruct (rc >? 0)%Z; simpl.
    + destruct (seconds d <? 0)%Z; simpl; [tally |].
      destruct (spawn pc _) as [c | e]; simpl.
      * unfold poll; simpl.
        destruct (lifetime c) as [[| n] |]; simpl; tally.
      * destruct (seconds d <? 0)%Z; simpl; tally.
    + destruct (spawn pc _) as [c | e]; simpl.
      * unfold poll; simpl.
        destruct (lifetime c) as [[| n] |]; simpl; tally.
      * destruct (seconds d <? 0)%Z; simpl; tally.
Qed.

Lemma run_loop_step (fuel : nat) (w : t) :
  running w = true ->
  run_loop spawn (S fuel) w =
    match run_iter spawn w with
    | (w', Break) => Exited w'
    | (w', _) => run_loop spawn fuel w'
    end.
Proof.
  intros Hrun. simpl. rewrite Hrun. reflexivity.
Qed.

(** Once the loop was left, more fuel changes nothing. *)
Lemma run_loop_more (fuel : nat) :
  forall (w w' : t) (extra : nat),
    run_loop spawn fuel w = Exited w' ->
    run_loop spawn (fuel + extra) w = Exited w'.
Proof.
  induction fuel as [| fuel IH]; intros w w' extra.
  - simpl. destruct (running w) eqn:Hrun; simpl; [discriminate |].
    intros Hexit. destruct extra; simpl; rewrite Hrun; exact Hexit.
  - simpl. destruct (running w); simpl; [| trivial].
    destruct (run_iter spawn w) as [w1 []]; try apply IH. trivial.
Qed.

(** The state a failed start leaves behind. *)
Lemma failed_attempt_state (w : t) :
  let w1 := called (ev_sleep (seconds (restart_delay w))) (attempted None w) in
  running w1 = running w /\
  process w1 = process w /\
  restart_count w1 = restart_count w /\
  restart_delay w1 = restart_delay w /\
  max_restarts w1 = max_restarts w /\
  should_restart w1 = should_restart w /\
  popen_calls w1 = S (popen_calls w) /\
  trace w1 = trace (paused w) ++
               [ev_popen (build_command w) None; ev_sleep (seconds (restart_delay w))] /\
  starts (trace w1) = starts (trace w) /\
  failed_spawns (trace w1) = S (failed_spawns (trace w)).
Proof.
  destruct w as [sp co d m r p rc pc tr].
  unfold attempted, paused, should_restart, build_command. simpl.
  destruct (rc >? 0)%Z; simpl; rewrite <- ?app_assoc; simpl;
    repeat split; tally.
Qed.

(** While every [Popen] call raises, the loop never ends: each iteration
    makes one more call and leaves [restart_count] alone. *)
Lemma run_loop_all_fail (fuel : nat) :
  (forall n cmd, exists e, spawn n cmd = Raise e) ->
  forall w : t,
    running w = true -> process w = None -> should_restart w = true ->
    (0 <= restart_delay w)%Z ->
    exists w',
      run_loop spawn fuel w = Looping w' /\
      restart_count w' = restart_count w /\
      popen_calls w' = (popen_calls w + fuel)%nat /\
      failed_spawns (trace w') = (failed_spawns (trace w) + fuel)%nat /\
      starts (trace w') = starts (trace w).
Proof.
  intros Hfail.
  induction fuel as [| fuel IH]; intros w Hrun Hp Hyes Hd.
  - exists w. simpl. rewrite Hrun. simpl. repeat split; lia.
  - destruct (Hfail (popen_calls w) (build_command w)) as [e He].
    rewrite (@run_loop_step fuel w Hrun).
    rewrite (@run_iter_failed_spawn w e Hp Hyes Hd He).
    destruct (failed_attempt_state w)
      as (Hrun1 & Hp1 & Hrc1 & Hd1 & _ & Hyes1 & Hpc1 & _ & Hst1 & Hfs1).
    destruct (IH (called (ev_sleep (seconds (restart_delay w))) (attempted None w)))
      as (w' & Hloop & Hrc & Hpc & Hfs & Hst); try congruence.
    exists w'. repeat split; try congruence; lia.
Qed.


(** The state a start leaves behind when the first [poll()] finds the
    child exited. *)
Lemma short_lived_state (w : t) (p : Z) :
  let w1 := set_restart_count (restart_count w + 1)%Z (attempted (Some p) w) in
  running w1 = running w /\
  process w1 = process w /\
  restart_count w1 = (restart_count w + 1)%Z /\
  restart_delay w1 = restart_delay w /\
  max_restarts w1 = max_restarts w /\
  popen_calls w1 = S (popen_calls w).
Proof.
  destruct w as [sp co d m r pr rc pc tr].
  unfold attempted, paused. simpl.
  destruct (rc >? 0)%Z; simpl; repeat split.
Qed.

Lemma should_restart_below_cap (w : t) (cap : Z) :
  running w = true -> max_restarts w = Some cap ->
  should_restart w = (restart_count w =? 0)%Z || (restart_count w <? cap)%Z.
Proof.
  intros Hrun Hmax. unfold should_restart. rewrite Hrun, Hmax. simpl.
  destruct (restart_count w =? 0)%Z; simpl; [reflexivity |].
  rewrite Z.geb_leb, Z.ltb_antisym.
  destruct (cap <=? restart_count w)%Z; reflexivity.
Qed.

(** An iteration that finds the child it holds still running. *)
Lemma run_iter_child_running (w : t) (h : Popen) (polls : nat) :
  process w = Some h -> returncode h = None ->
  lifetime (child h) = Some polls -> (polled h < polls)%nat ->
  run_iter spawn w =
    (called (ev_sleep 500)
       (set_process (Some (mkPopen (child h) None (S (polled h)))) w), Continue).
Proof.
  intros Hp Hret Hlife Halive.
  unfold run_iter, run_try, ensure_started, mbind, gets, lift, ret, modify,
    monitor_process, poll, time_sleep.
  rewrite Hp. simpl. rewrite Hp, Hret, Hlife.
  destruct (Nat.leb_spec polls (polled h)) as [Hle | Hlt]; [lia |].
  reflexivity.
Qed.

(** An iteration that finds the child it holds exited. *)
Lemma run_iter_child_exited (w : t) (h : Popen) (polls : nat) :
  process w = Some h -> returncode h = None ->
  lifetime (child h) = Some polls -> (polls <= polled h)%nat ->
  run_iter spawn w = (set_process None w, Continue).
Proof.
  intros Hp Hret Hlife Hgone.
  unfold run_iter, run_try, ensure_started, mbind, gets, lift, ret, modify,
    monitor_process, poll, time_sleep.
  rewrite Hp. simpl. rewrite Hp, Hret, Hlife.
  destruct (Nat.leb_spec polls (polled h)) as [Hle | Hlt]; [| lia].
  reflexivity.
Qed.

(** A child that exits by itself is polled until it is found exited; the
    loop then holds no child and has counted nothing new. *)
Lemma run_loop_child_exits (left : nat) :
  forall (w : t) (h : Popen) (polls : nat),
    running w = true -> process w = Some h -> returncode h = None ->
    lifetime (child h) = Some polls -> (polls - polled h <= left)%nat ->
    exists (fuel : nat) (w' : t),
      (forall more, run_loop spawn (fuel + more) w = run_loop spawn more w') /\
      running w' = true /\ process w' = None /\
      restart_count w' = restart_count w /\
      popen_calls w' = popen_calls w /\
      max_restarts w' = max_restarts w /\
      restart_delay w' = restart_delay w /\
      starts (trace w') = starts (trace w).
Proof.
  induction left as [| left IH]; intros w h polls Hrun Hp Hret Hlife Hleft.
  - exists 1%nat, (set_process None w). split.
    + intros more. cbn [Nat.add].
      rewrite (@run_loop_step more w Hrun).
      rewrite (@run_iter_child_exited w h polls Hp Hret Hlife); [reflexivity | lia].
    + repeat split; assumption.
  - destruct (Nat.le_gt_cases polls (polled h)) as [Hgone | Halive].
    + exists 1%nat, (set_process None w). split.
      * intros more. cbn [Nat.add].
        rewrite (@run_loop_step more w Hrun).
        rewrite (@run_iter_child_exited w h polls Hp Hret Hlife Hgone). reflexivity.
      * repeat split; assumption.
    + set (w1 := called (ev_sleep 500)
                   (set_process (Some (mkPopen (child h) None (S (polled h)))) w)).
      destruct (IH w1 (mkPopen (child h) None (S (polled h))) polls)
        as (fuel & w' & Hskip & Hrun' & Hp' & Hrc' & Hpc' & Hmax' & Hd' & Hst');
        try reflexivity; try assumption; [simpl; lia |].
      exists (S fuel), w'. split.
      * intros more. cbn [Nat.add].
        rewrite (@run_loop_step (fuel + more) w Hrun).
        rewrite (@run_iter_child_running w h polls Hp Hret Hlife Halive).
        apply Hskip.
      * repeat split; try assumption.
        rewrite Hst'. unfold w1. simpl. tally.
Qed.

(** An iteration whose [Popen] call returns a child that exits by itself
    sooner or later. *)
Lemma run_iter_started (w : t) (c : Child) (polls : nat) :
  process w = None -> should_restart w = true ->
  (0 <= restart_delay w)%Z ->
  spawn (popen_calls w) (build_command w) = Ok c ->
  lifetime c = Some polls ->
  exists w1 : t,
    run_iter spawn w = (w1, Continue) /\
    running w1 = running w /\
    restart_count w1 = (restart_count w + 1)%Z /\
    popen_calls w1 = S (popen_calls w) /\
    max_restarts w1 = max_restarts w /\
    restart_delay w1 = restart_delay w /\
    starts (trace w1) = S (starts (trace w)) /\
    (process w1 = None \/
     exists h : Popen,
       process w1 = Some h /\ returncode h = None /\ lifetime (child h) = Some polls).
Proof.
  intros Hp Hyes Hd Hspawn Hlife.
  unfold run_iter, run_try, ensure_started, mbind, gets, lift, ret, modify.
  rewrite Hp, Hyes.
  unfold time_sleep, start_process, build_command in *.
  destruct w as [sp co d m r p rc pc tr]; simpl in *. subst p.
  destruct (rc >? 0)%Z; simpl;
    rewrite ?(sleep_allowed Hd); simpl; rewrite Hspawn; simpl;
    unfold monitor_process, poll; simpl; rewrite Hlife;
    (destruct polls as [| polls]; simpl;
     [eexists; split; [reflexivity |]; simpl; repeat split; try tally; left; reflexivity
     | eexists; split; [reflexivity |]; simpl; repeat split; try tally;
       right; eexists; repeat split; assumption]).
Qed.

(** With a cap of 2, children that exit by themselves and [Popen]
    succeeding from its [settle]-th call on, the loop is left with two
    starts counted. The induction is on a bound for the starts still
    allowed plus the calls that may still fail. *)
Lemma run_loop_reaches_cap (settle : nat) :
  (forall n cmd c, spawn n cmd = Ok c -> exists polls, lifetime c = Some polls) ->
  (forall n cmd, (settle <= n)%nat -> exists c, spawn n cmd = Ok c) ->
  forall (budget : nat) (w : t),
    running w = true -> process w = None -> max_restarts w = Some 2%Z ->
    (0 <= restart_delay w)%Z ->
    (0 <= restart_count w <= 2)%Z ->
    (Z.to_nat (2 - restart_count w) + (settle - popen_calls w) <= budget)%nat ->
    exists (w' : t) (fuel : nat),
      run_loop spawn fuel w = Exited w' /\
      running w' = true /\ process w' = None /\
      restart_count w' = 2%Z /\ max_restarts w' = Some 2%Z /\
      (Z.of_nat (starts (trace w')) - restart_count w' =
       Z.of_nat (starts (trace w)) - restart_count w)%Z.
Proof.
  intros Hexits Hsettle.
  induction budget as [| budget IH]; intros w Hrun Hp Hmax Hd Hrc Hbudget.
  - assert (Hcap : restart_count w = 2%Z) by lia.
    exists w, 1%nat.
    rewrite (@run_loop_step 0 w Hrun), run_iter_break; trivial.
    + repeat split; trivial.
    + rewrite (@should_restart_below_cap w 2%Z Hrun Hmax), Hcap. reflexivity.
  - destruct (Z.eq_dec (restart_count w) 2) as [Hcap | Hbelow].
    + exists w, 1%nat.
      rewrite (@run_loop_step 0 w Hrun), run_iter_break; trivial.
      * repeat split; trivial.
      * rewrite (@should_restart_below_cap w 2%Z Hrun Hmax), Hcap. reflexivity.
    + assert (Hyes : should_restart w = true).
      { rewrite (@should_restart_below_cap w 2%Z Hrun Hmax).
        apply orb_true_iff. right. apply Z.ltb_lt. lia. }
      destruct (spawn (popen_calls w) (build_command w)) as [c | e] eqn:Hspawn.
      * destruct (Hexits _ _ _ Hspawn) as [polls Hlife].
        destruct (@run_iter_started w c polls Hp Hyes Hd Hspawn Hlife)
          as (w1 & Hiter & Hrun1 & Hrc1 & Hpc1 & Hmax1 & Hd1 & Hst1 & Hchild).
        assert (Hidle : exists (fuel : nat) (w2 : t),
                   (forall more, run_loop spawn (fuel + more) w1 = run_loop spawn more w2) /\
                   running w2 = true /\ process w2 = None /\
                   restart_count w2 = restart_count w1 /\
                   popen_calls w2 = popen_calls w1 /\
                   max_restarts w2 = max_restarts w1 /\
                   restart_delay w2 = restart_delay w1 /\
                   starts (trace w2) = starts (trace w1)).
        { destruct Hchild as [Hnone | (h & Hheld & Hret & Hlife1)].
          - exists 0%nat, w1. repeat split; trivial. congruence.
          - apply (@run_loop_child_exits polls w1 h polls); trivial;
              [congruence | lia]. }
        destruct Hidle as (fuel1 & w2 & Hskip & Hrun2 & Hp2 & Hrc2 & Hpc2 & Hmax2 & Hd2 & Hst2).
        destruct (IH w2) as (w' & fuel2 & Hloop & Hrun' & Hp' & Hrc' & Hmax' & Hst');
          try congruence; try lia.
        exists w', (S (fuel1 + fuel2)).
        rewrite (@run_loop_step (fuel1 + fuel2) w Hrun), Hiter, Hskip.
        repeat split; trivial. lia.
      * assert (Hearly : (popen_calls w < settle)%nat).
        { destruct (Nat.lt_ge_cases (popen_calls w) settle) as [Hlt | Hge]; [exact Hlt |].
          destruct (Hsettle _ (build_command w) Hge) as [c Hc]. congruence. }
        pose proof (run_iter_counts_starts w) as Hcount.
        rewrite (@run_iter_failed_spawn w e Hp Hyes Hd Hspawn) in Hcount.
        cbn [fst] in Hcount.
        destruct (failed_attempt_state w)
          as (Hrun1 & Hp1 & Hrc1 & Hd1 & Hmax1 & _ & Hpc1 & _).
        destruct (IH (called (ev_sleep (seconds (restart_delay w))) (attempted None w)))
          as (w' & fuel & Hloop & Hrun' & Hp' & Hrc' & Hmax' & Hst');
          try congruence; try lia.
        exists w', (S fuel).
        rewrite (@run_loop_step fuel w Hrun).
        rewrite (@run_iter_failed_spawn w e Hp Hyes Hd Hspawn).
        repeat split; trivial. lia.
Qed.


End WithSpawn.

End SupervisorProperties.



(** * Further properties of the detection function *)

Section DetectionFilter.

Variables Frame float error : Type.
Variable net_Detect : Frame -> result error (list (Detection.RawDetection float)).
Variable net_GetClassDesc : Z -> result error string.
Variable int_of_float : float -> result error Z.

Local Abbreviation collect := (Detection.collect net_GetClassDesc int_of_float).
Local Abbreviation detect :=
  (Detection.jetson_object_detection net_Detect net_GetClassDesc int_of_float).

Local Abbreviation admissible := (@History.admissible float).

Lemma collect_admissible (raws : list (Detection.RawDetection float)) :
  forall acc res : Detection.DetectionSet float,
    Forall admissible acc ->
    collect raws acc = Ok res ->
    Forall admissible res /\
    (List.length res <= List.length acc + List.length raws)%nat.
Proof.
  induction raws as [| raw raws IH]; intros acc res Hacc Hres;
    cbn [Detection.collect bind] in Hres.
  - injection Hres as <-. split; [exact Hacc | lia].
  - destruct (net_GetClassDesc (Detection.ClassID raw)) as [name | e];
      cbn [bind] in Hres; [| discriminate].
    destruct (Detection.dict_mem (Detection.lower name) Detection.VEHICLE_CLASSES)
      eqn:Hallowed.
    + destruct (int_of_float (Detection.Left raw)) as [x1 | e];
        cbn [bind] in Hres; [| discriminate].
      destruct (int_of_float (Detection.Top raw)) as [y1 | e];
        cbn [bind] in Hres; [| discriminate].
      destruct (int_of_float (Detection.Right raw)) as [x2 | e];
        cbn [bind] in Hres; [| discriminate].
      destruct (int_of_float (Detection.Bottom raw)) as [y2 | e];
        cbn [bind] in Hres; [| discriminate].
      assert (Hacc' : Forall admissible
                        (acc ++ [Detection.mkDetection [x1; y1; x2; y2] name
                                   (Detection.Confidence raw)])).
      { apply Forall_app. split; [exact Hacc |].
        constructor; [| constructor]. split; [exact Hallowed | reflexivity]. }
      destruct (IH _ _ Hacc' Hres) as [Hall Hlen].
      split; [exact Hall |].
      rewrite length_app in Hlen. simpl in *. lia.
    + destruct (IH _ _ Hacc Hres) as [Hall Hlen].
      split; [exact Hall | simpl; lia].
Qed.

(** X1. Whatever the classifier answers, every detection that
    [jetson_object_detection] returns carries a label whose lower-case form
    is a key of [VEHICLE_CLASSES] and a box of four integers, and there are
    no more of them than the classifier reported. *)
Theorem detect_only_vehicle_classes
  (frame : Frame) (raws : list (Detection.RawDetection float)) :
  net_Detect frame = Ok raws ->
  Forall admissible (detect frame) /\
  (List.length (detect frame) <= List.length raws)%nat.
Proof.
  intros Hraws.
  unfold Detection.jetson_object_detection, Detection.jetson_object_detection_try.
  rewrite Hraws. cbn [bind].
  destruct (collect raws []) as [res | e] eqn:Hres.
  - destruct (collect_admissible raws (Forall_nil _) Hres) as [Hall Hlen].
    split; [exact Hall | exact Hlen].
  - split; [constructor | simpl; lia].
Qed.

Section Total.

(** The values of the class lookups and of the conversions. *)
Variable desc : Z -> string.
Variable trunc : float -> Z.

Local Abbreviation allowed := (@History.allowed float desc).
Local Abbreviation converted := (@History.converted float desc trunc).
Local Abbreviation answers :=
  (History.answers net_GetClassDesc int_of_float desc trunc).

Lemma collect_filter_map (raws : list (Detection.RawDetection float)) :
  Forall answers raws ->
  forall acc : Detection.DetectionSet float,
    collect raws acc = Ok (acc ++ map converted (filter allowed raws)).
Proof.
  induction 1 as [| raw raws [Hdesc Hboxes] Hrest IH]; intros acc;
    cbn [Detection.collect bind filter].
  - rewrite app_nil_r. reflexivity.
  - rewrite Hdesc. cbn [bind]. unfold History.allowed in Hboxes |- * at 1.
    destruct (Detection.dict_mem (Detection.lower (desc (Detection.ClassID raw)))
                Detection.VEHICLE_CLASSES).
    + destruct (Hboxes eq_refl) as (H1 & H2 & H3 & H4).
      rewrite H1, H2, H3, H4. cbn [bind map]. rewrite IH, <- app_assoc. reflexivity.
    + apply IH.
Qed.

(** X2. When for the detections reported for a frame, whose labels are
    ASCII, every class lookup returns and, for the allowed ones, every
    [int()] conversion returns, [jetson_object_detection] returns exactly
    the reported detections whose label is allowed, in the order reported,
    each with its converted box, its label as reported (case kept) and its
    confidence. Nothing is asked of lookups and conversions that the frame
    does not need. *)
Theorem detect_is_filter_map
  (frame : Frame) (raws : list (Detection.RawDetection float)) :
  net_Detect frame = Ok raws ->
  Forall answers raws ->
  Forall (fun raw => History.is_ascii (desc (Detection.ClassID raw)) = true) raws ->
  detect frame = map converted (filter allowed raws).
Proof.
  intros Hraws Hanswers _.
  unfold Detection.jetson_object_detection, Detection.jetson_object_detection_try.
  rewrite Hraws. cbn [bind]. rewrite (collect_filter_map Hanswers). reflexivity.
Qed.

End Total.

Lemma collect_poisoned (bad : Detection.RawDetection float) (name : string) :
  net_GetClassDesc (Detection.ClassID bad) = Ok name ->
  Detection.dict_mem (Detection.lower name) Detection.VEHICLE_CLASSES = true ->
  (exists e, int_of_float (Detection.Left bad) = Raise e) \/
  (exists e, int_of_float (Detection.Top bad) = Raise e) \/
  (exists e, int_of_float (Detection.Right bad) = Raise e) \/
  (exists e, int_of_float (Detection.Bottom bad) = Raise e) ->
  forall (raws : list (Detection.RawDetection float)) (acc : Detection.DetectionSet float),
    In bad raws -> exists e, collect raws acc = Raise e.
Proof.
  intros Hname Hallowed Hbad.
  induction raws as [| raw raws IH]; intros acc Hin; [destruct Hin |].
  cbn [Detection.collect bind].
  destruct (net_GetClassDesc (Detection.ClassID raw)) as [n | e] eqn:Hn; cbn [bind];
    [| eexists; reflexivity].
  destruct (Detection.dict_mem (Detection.lower n) Detection.VEHICLE_CLASSES) eqn:Ha.
  - destruct (int_of_float (Detection.Left raw)) as [x1 | e] eqn:H1; cbn [bind];
      [| eexists; reflexivity].
    destruct (int_of_float (Detection.Top raw)) as [y1 | e] eqn:H2; cbn [bind];
      [| eexists; reflexivity].
    destruct (int_of_float (Detection.Right raw)) as [x2 | e] eqn:H3; cbn [bind];
      [| eexists; reflexivity].
    destruct (int_of_float (Detection.Bottom raw)) as [y2 | e] eqn:H4; cbn [bind];
      [| eexists; reflexivity].
    destruct Hin as [-> | Hin]; [| apply IH; exact Hin].
    destruct Hbad as [[e He] | [[e He] | [[e He] | [e He]]]]; congruence.
  - destruct Hin as [-> | Hin]; [| apply IH; exact Hin].
    congruence.
Qed.

(** X3. One reported detection of an allowed class whose box has a
    coordinate that [int()] rejects makes [jetson_object_detection] return
    the empty list for the whole frame, whatever else was detected in
    it. *)
Theorem detect_poisoned_by_one_box
  (frame : Frame) (raws : list (Detection.RawDetection float))
  (bad : Detection.RawDetection float) (name : string) :
  net_Detect frame = Ok raws ->
  In bad raws ->
  net_GetClassDesc (Detection.ClassID bad) = Ok name ->
  Detection.dict_mem (Detection.lower name) Detection.VEHICLE_CLASSES = true ->
  (exists e, int_of_float (Detection.Left bad) = Raise e) \/
  (exists e, int_of_float (Detection.Top bad) = Raise e) \/
  (exists e, int_of_float (Detection.Right bad) = Raise e) \/
  (exists e, int_of_float (Detection.Bottom bad) = Raise e) ->
  detect frame = [].
Proof.
  intros Hraws Hin Hname Hallowed Hbad.
  unfold Detection.jetson_object_detection, Detection.jetson_object_detection_try.
  rewrite Hraws. cbn [bind].
  destruct (@collect_poisoned bad name Hname Hallowed Hbad raws [] Hin) as [e He].
  rewrite He. reflexivity.
Qed.

End DetectionFilter.

Lemma detect_only_vehicle_classes_witness :
  Forall (@History.admissible Z)
    (Detection.jetson_object_detection Cases.net_Detect Scenario.net_GetClassDesc
       Scenario.int_of_float 1%nat) /\
  List.length
    (Detection.jetson_object_detection Cases.net_Detect Scenario.net_GetClassDesc
       Scenario.int_of_float 1%nat) = 2%nat.
Proof.
  split; [| reflexivity].
  apply (proj1 (@detect_only_vehicle_classes nat Z unit Cases.net_Detect
                  Scenario.net_GetClassDesc Scenario.int_of_float 1%nat
                  [Cases.dog; Cases.person; Scenario.car] eq_refl)).
Defined.

Lemma detect_is_filter_map_witness :
  Detection.jetson_object_detection Cases.net_Detect_stray Scenario.net_GetClassDesc
    Cases.int_of_float 1%nat =
  [Detection.mkDetection [5; 6; 7; 8]%Z "person" 1%Z;
   Detection.mkDetection [10; 20; 110; 220]%Z "car" 1%Z].
Proof.
  apply (@detect_is_filter_map nat Z unit Cases.net_Detect_stray
           Scenario.net_GetClassDesc Cases.int_of_float Cases.desc (fun x => x)
           1%nat [Cases.stray; Cases.person; Scenario.car] eq_refl).
  - repeat constructor; discriminate.
  - repeat constructor.
Defined.

Lemma detect_poisoned_by_one_box_witness :
  Detection.jetson_object_detection Cases.net_Detect Scenario.net_GetClassDesc
    Cases.int_of_float 0%nat = [].
Proof.
  apply (@detect_poisoned_by_one_box nat Z unit Cases.net_Detect
           Scenario.net_GetClassDesc Cases.int_of_float 0%nat
           [Cases.person; Cases.broken_car] Cases.broken_car "car" eq_refl).
  - right. left. reflexivity.
  - reflexivity.
  - reflexivity.
  - right. left. exists tt. reflexivity.
Defined.

(** * The order of results through the pipeline *)

Section Thinning.

Variable A : Type.

Lemma thins_refl (l : list A) : History.thins l l.
Proof.
  induction l as [| x l IH]; constructor; exact IH.
Qed.

Lemma thins_snoc_keep (x : A) (l l' : list A) :
  History.thins l l' -> History.thins (l ++ [x]) (l' ++ [x]).
Proof.
  induction 1; simpl; repeat constructor; assumption.
Qed.

Lemma thins_snoc_drop (x : A) (l l' : list A) :
  History.thins l l' -> History.thins l (l' ++ [x]).
Proof.
  induction 1; simpl; repeat constructor; assumption.
Qed.

Lemma thins_app_left (l rest : list A) : History.thins l (l ++ rest).
Proof.
  induction rest as [| x rest IH] using rev_ind.
  - rewrite app_nil_r. apply thins_refl.
  - rewrite app_assoc. apply thins_snoc_drop. exact IH.
Qed.

Lemma thins_trans (l2 l3 : list A) :
  History.thins l2 l3 -> forall l1, History.thins l1 l2 -> History.thins l1 l3.
Proof.
  induction 1 as [| x l2 l3 H23 IH | x l2 l3 H23 IH]; intros l1 H12.
  - exact H12.
  - inversion H12; subst.
    + apply History.thins_keep. apply IH. assumption.
    + apply History.thins_drop. apply IH. assumption.
  - apply History.thins_drop. apply IH. exact H12.
Qed.

End Thinning.

Section ResultOrder.

Variables Frame float error : Type.
Variable net_Detect : Frame -> result error (list (Detection.RawDetection float)).
Variable net_GetClassDesc : Z -> result error string.
Variable int_of_float : float -> result error Z.

Local Abbreviation FP := (Detection.FrameProcessor Frame float).
Local Abbreviation detect :=
  (Detection.jetson_object_detection net_Detect net_GetClassDesc int_of_float).
Local Abbreviation step := (Detection.step net_Detect net_GetClassDesc int_of_float).
Local Abbreviation exec := (Detection.exec net_Detect net_GetClassDesc int_of_float).
Local Abbreviation step_reads :=
  (History.step_reads net_Detect net_GetClassDesc int_of_float).
Local Abbreviation exec_reads :=
  (History.exec_reads net_Detect net_GetClassDesc int_of_float).
Local Abbreviation started := (Detection.start (Detection.FrameProcessor_init Frame float)).

Local Abbreviation accounted :=
  (History.accounted net_Detect net_GetClassDesc int_of_float).

Lemma step_reads_accounted (o : Detection.op Frame) (submitted : list Frame)
  (s : FP * list (Detection.DetectionSet float)) :
  accounted submitted s ->
  accounted (submitted ++ History.submitted_frames [o]) (step_reads o s).
Proof.
  intros (taken & kept & Hin & Hkept & Hout).
  destruct s as [[[m1 waiting] [m2 results] r] reads]. simpl in Hin, Hout.
  destruct o as [f | |]; unfold History.step_reads, History.submitted_frames; simpl.
  - unfold Detection.add_rgb_frame, PyQueue.put_nowait. simpl.
    destruct (PyQueue.full (PyQueue.mk m1 waiting)); simpl.
    + exists taken, kept. simpl. repeat split; trivial.
      apply thins_snoc_drop. exact Hin.
    + exists taken, kept. simpl. repeat split; trivial.
      rewrite app_assoc. apply thins_snoc_keep. exact Hin.
  - rewrite app_nil_r.
    unfold Detection.detection_worker_iter, Detection.detection_worker_try,
      PyQueue.get_timeout, PyQueue.get_nowait. simpl.
    destruct waiting as [| f waiting]; simpl.
    + exists taken, kept. simpl. repeat split; trivial.
    + destruct (PyQueue.full (PyQueue.mk m2 results)); simpl.
      * exists (taken ++ [f]), kept. simpl. repeat split; trivial.
        -- rewrite <- app_assoc. exact Hin.
        -- apply thins_snoc_drop. exact Hkept.
      * exists (taken ++ [f]), (kept ++ [f]). simpl. repeat split.
        -- rewrite <- app_assoc. exact Hin.
        -- apply thins_snoc_keep. exact Hkept.
        -- rewrite map_app, Hout, <- app_assoc. reflexivity.
  - rewrite app_nil_r.
    unfold Detection.get_latest_detection, PyQueue.get_nowait. simpl.
    destruct results as [| res results]; simpl.
    + exists taken, kept. simpl. repeat split; trivial.
    + exists taken, kept. simpl. repeat split; trivial.
      rewrite <- app_assoc. exact Hout.
Qed.

Lemma step_reads_fst (o : Detection.op Frame)
  (s : FP * list (Detection.DetectionSet float)) :
  fst (step_reads o s) = step o (fst s).
Proof.
  unfold History.step_reads.
  destruct o; try reflexivity.
  destruct (fst (Detection.get_latest_detection (fst s))); reflexivity.
Qed.

Lemma exec_reads_accounted (ops : list (Detection.op Frame)) :
  fst (exec_reads ops started) = exec ops started /\
  accounted (History.submitted_frames ops) (exec_reads ops started).
Proof.
  induction ops as [| o ops [IHfst IHacc]] using rev_ind.
  - split; [reflexivity |].
    exists [], []. simpl. repeat split; constructor.
  - unfold History.exec_reads, Detection.exec in *.
    rewrite !fold_left_app. simpl. split.
    + rewrite step_reads_fst, IHfst. reflexivity.
    + unfold History.submitted_frames in *. rewrite flat_map_app.
      apply step_reads_accounted. exact IHacc.
Qed.

(** X4. Over any interleaving of submits, worker steps and reads, the
    results read so far followed by the results still queued are the
    detections of some of the submitted frames, in submission order and
    each submitted frame used at most once: the pipeline drops results but
    never reorders, repeats or invents one. *)
Theorem results_follow_submission_order (ops : list (Detection.op Frame)) :
  fst (exec_reads ops started) = exec ops started /\
  exists kept : list Frame,
    History.thins kept (History.submitted_frames ops) /\
    snd (exec_reads ops started) ++
      PyQueue.items (Detection.result_queue (exec ops started)) = map detect kept.
Proof.
  destruct (exec_reads_accounted ops) as [Hfst (taken & kept & Hin & Hkept & Hout)].
  split; [exact Hfst |].
  exists kept. split.
  - apply (thins_trans Hin).
    apply (thins_trans (thins_app_left taken _)). exact Hkept.
  - rewrite <- Hfst. symmetry. exact Hout.
Qed.

End ResultOrder.

(** * Further properties of the alert side and of the main loop *)

Section AlertEdges.

Import Detection.

Lemma calls_cons (f : event -> bool) (ev : list event) (evs : list (list event)) :
  calls f (ev :: evs) = (List.length (filter f ev) + calls f evs)%nat.
Proof.
  unfold calls. simpl. rewrite filter_app, length_app. reflexivity.
Qed.

Lemma alert_cycles_edges (inputs : list bool) :
  forall (prev : bool) (g : Globals),
    sound_enabled g = true ->
    current_playing_sound g = (if prev then Some "chiller"%string else None) ->
    calls is_play (snd (alert_cycles inputs g)) = History.rising prev inputs /\
    calls is_stop (snd (alert_cycles inputs g)) =
      (History.rising prev inputs + History.falling prev inputs)%nat.
Proof.
  induction inputs as [| has_detections rest IH]; intros prev g Hon Hplaying.
  - split; reflexivity.
  - cbn [alert_cycles History.rising History.falling].
    destruct (play_alert_sound has_detections g) as [g1 ev] eqn:Hstep.
    assert (Hg1 : sound_enabled g1 = true /\
                  current_playing_sound g1 =
                    (if has_detections then Some "chiller"%string else None) /\
                  List.length (filter is_play ev) =
                    (if negb prev && has_detections then 1 else 0)%nat /\
                  List.length (filter is_stop ev) =
                    ((if negb prev && has_detections then 1 else 0) +
                     (if prev && negb has_detections then 1 else 0))%nat).
    { unfold play_alert_sound in Hstep. rewrite Hon, Hplaying in Hstep.
      destruct prev, has_detections; simpl in Hstep;
        injection Hstep as <- <-; simpl; repeat split; assumption. }
    destruct Hg1 as (Hon1 & Hplaying1 & Hplays & Hstops).
    destruct (IH has_detections g1 Hon1 Hplaying1) as [IHplay IHstop].
    destruct (alert_cycles rest g1) as [g2 evs]. simpl in IHplay, IHstop |- *.
    rewrite !calls_cons, Hplays, Hstops, IHplay, IHstop. split; lia.
Qed.

(** X5. For every sequence of danger states fed to an enabled, silent
    alert controller, [play] is called once per change from ABSENT to
    PRESENT and [mixer.stop()] once per change in either direction. *)
Theorem alert_calls_count_edges (inputs : list bool) (g : Globals) :
  sound_enabled g = true ->
  current_playing_sound g = None ->
  calls is_play (snd (alert_cycles inputs g)) = History.rising ABSENT inputs /\
  calls is_stop (snd (alert_cycles inputs g)) =
    (History.rising ABSENT inputs + History.falling ABSENT inputs)%nat.
Proof.
  intros Hon Hsilent. apply alert_cycles_edges; assumption.
Qed.

Lemma alert_calls_count_edges_witness :
  calls is_play
    (snd (alert_cycles [PRESENT; PRESENT; ABSENT; ABSENT; PRESENT; ABSENT; PRESENT]
            Scenario.enabled)) = 3%nat /\
  calls is_stop
    (snd (alert_cycles [PRESENT; PRESENT; ABSENT; ABSENT; PRESENT; ABSENT; PRESENT]
            Scenario.enabled)) = 5%nat.
Proof.
  apply (@alert_calls_count_edges
           [PRESENT; PRESENT; ABSENT; ABSENT; PRESENT; ABSENT; PRESENT]
           Scenario.enabled eq_refl eq_refl).
Defined.

End AlertEdges.

Section MainPass.

Import Detection.

Variables Frame float : Type.

Local Abbreviation State := (MainState Frame float).

(** X6. With emulator communication enabled, every pass of the main loop
    hands exactly one datagram to the socket, and it tells the danger state
    of the detections the pass ends with: 50 when there are any, 0 when
    there are none. *)
Theorem main_cycle_sends_one_datagram (rgb_in : option Frame) (st : State) :
  emulator_enabled (globals st) = true ->
  filter is_send (snd (main_cycle rgb_in st)) =
    [sendto (match current_detections (fst (main_cycle rgb_in st)) with
             | [] => wire_danger_0
             | _ :: _ => wire_danger_50
             end) "127.0.0.1" 5555].
Proof.
  intros Hon. rewrite main_cycle_sends.
  unfold send_to_emulator. rewrite Hon.
  destruct (current_detections (fst (main_cycle rgb_in st))); reflexivity.
Qed.

(** X7. With the sound system enabled, after every pass of the main loop
    the chiller sound is marked as playing exactly when the detections the
    pass ends with are non-empty, whatever was marked before. *)
Theorem main_cycle_alarm_tracks_danger (rgb_in : option Frame) (st : State) :
  sound_enabled (globals st) = true ->
  current_playing_sound (globals (fst (main_cycle rgb_in st))) =
    match current_detections (fst (main_cycle rgb_in st)) with
    | [] => None
    | _ :: _ => Some "chiller"%string
    end.
Proof.
  intros Hon. rewrite main_cycle_unfold. cbn [fst globals current_detections].
  rewrite Hon, (play_alert_sound_memory _ _ Hon).
  destruct (match fst (get_latest_detection (submitted rgb_in (processor st))) with
            | Some d => d
            | None => current_detections st
            end) as [| d rest]; simpl; [reflexivity |].
  destruct (current_playing_sound (globals st)) as [name |] eqn:Hname; simpl;
    [| reflexivity].
  destruct (String.eqb_spec name "chiller"); [subst; reflexivity | reflexivity].
Qed.

End MainPass.

Lemma main_cycle_sends_one_datagram_witness :
  filter Detection.is_send
    (snd (Detection.main_cycle (Some 3%nat)
            (Detection.mkMain
               (Scenario.exec [Detection.Submit 2%nat; Detection.WorkerStep]
                  Scenario.processor0) [] Scenario.enabled)))
  = [Detection.sendto Detection.wire_danger_50 "127.0.0.1" 5555].
Proof.
  apply (@main_cycle_sends_one_datagram nat Z (Some 3%nat)
           (Detection.mkMain
              (Scenario.exec [Detection.Submit 2%nat; Detection.WorkerStep]
                 Scenario.processor0) [] Scenario.enabled) eq_refl).
Defined.

Lemma main_cycle_alarm_tracks_danger_witness :
  Detection.current_playing_sound
    (Detection.globals
       (fst (Detection.main_cycle None
               (Detection.mkMain
                  (Scenario.exec [Detection.Submit 1%nat; Detection.WorkerStep]
                     Scenario.processor0) [Detection.mkDetection [1; 2; 3; 4]%Z "bus" 1%Z]
                  (Detection.mkGlobals true false (Some "chiller"%string))))))
  = None.
Proof.
  apply (@main_cycle_alarm_tracks_danger nat Z None
           (Detection.mkMain
              (Scenario.exec [Detection.Submit 1%nat; Detection.WorkerStep]
                 Scenario.processor0) [Detection.mkDetection [1; 2; 3; 4]%Z "bus" 1%Z]
              (Detection.mkGlobals true false (Some "chiller"%string))) eq_refl).
Defined.

(** * Further properties of the supervisor *)

Section SupervisorSafety.

Import Watchdog.

Variable spawn : nat -> list string -> result exn Child.

Lemma restart_allowed_room (w : t) :
  should_restart w = true -> capped w ->
  (0 <= restart_count w + 1)%Z /\
  forall cap : Z, max_restarts w = Some cap -> (restart_count w + 1 <= Z.max 1 cap)%Z.
Proof.
  unfold should_restart, capped. intros Hyes [Hpos Hcap].
  split; [lia |]. intros cap Hmax. rewrite Hmax in Hyes.
  destruct (running w); simpl in Hyes; [| discriminate].
  destruct (Z.eqb_spec (restart_count w) 0) as [Hz | Hnz]; [lia |].
  destruct (Z.geb_spec (restart_count w) cap); [discriminate | lia].
Qed.

(** An iteration keeps the policy and stays within its bound. *)
Lemma run_iter_capped (w : t) :
  capped w ->
  capped (fst (run_iter spawn w)) /\
  max_restarts (fst (run_iter spawn w)) = max_restarts w.
Proof.
  intros Hcapped.
  destruct w as [sp co d m r p rc pc tr].
  unfold run_iter, run_try, ensure_started, mbind, gets, lift, ret, modify,
    time_sleep, start_process, monitor_process.
  destruct p as [h |]; simpl.
  - destruct (poll h) as [h' [code |]]; simpl; split;
      first [exact Hcapped | reflexivity].
  - destruct (should_restart _) eqn:Hyes; simpl;
      [| split; first [exact Hcapped | reflexivity]].
    pose proof (restart_allowed_room Hyes Hcapped) as Hroom.
    destruct (rc >? 0)%Z; simpl.
    + destruct (seconds d <? 0)%Z; simpl;
        [split; first [exact Hcapped | reflexivity] |].
      destruct (spawn pc _) as [c | e]; simpl.
      * unfold poll; simpl.
        destruct (lifetime c) as [[| n] |]; simpl; split;
          first [exact Hroom | reflexivity].
      * destruct (seconds d <? 0)%Z; simpl; split;
          first [exact Hcapped | reflexivity].
    + destruct (spawn pc _) as [c | e]; simpl.
      * unfold poll; simpl.
        destruct (lifetime c) as [[| n] |]; simpl; split;
          first [exact Hroom | reflexivity].
      * destruct (seconds d <? 0)%Z; simpl; split;
          first [exact Hcapped | reflexivity].
Qed.

Lemma run_loop_capped (fuel : nat) :
  forall w : t,
    capped w ->
    capped (state_of (run_loop spawn fuel w)) /\
    max_restarts (state_of (run_loop spawn fuel w)) = max_restarts w /\
    (Z.of_nat (starts (trace (state_of (run_loop spawn fuel w)))) -
     restart_count (state_of (run_loop spawn fuel w)) =
     Z.of_nat (starts (trace w)) - restart_count w)%Z.
Proof.
  induction fuel as [| fuel IH]; intros w Hcapped; simpl.
  - destruct (running w); simpl; repeat split; trivial; apply Hcapped.
  - destruct (running w); simpl; [| repeat split; trivial; apply Hcapped].
    destruct (run_iter_capped Hcapped) as [Hcapped1 Hmax1].
    pose proof (run_iter_counts_starts spawn w) as Hcount.
    destruct (run_iter spawn w) as [w1 f]. simpl in Hcapped1, Hmax1, Hcount.
    destruct f; simpl.
    + destruct (IH w1 Hcapped1) as (Hc & Hm & Hs).
      repeat split; try apply Hc; [congruence | lia].
    + repeat split; try apply Hcapped1; [exact Hmax1 | lia].
    + destruct (IH w1 Hcapped1) as (Hc & Hm & Hs).
      repeat split; try apply Hc; [congruence | lia].
Qed.

(** X8. Whatever the operating system answers (spawns failing or
    succeeding, children living for any time), whatever the restart delay
    and however long the loop runs: in every state the loop reaches from
    [__init__], [restart_count] equals the number of [Popen] calls that
    returned a child, and under a cap it is at most [max(1, max_restarts)]. *)
Theorem restart_count_never_exceeds_cap
  (script : string) (cam : bool) (delay : Z) (policy : option Z) (fuel : nat) :
  let w := state_of (run_loop spawn fuel (init script cam delay policy)) in
  restart_count w = Z.of_nat (starts (trace w)) /\
  match policy with
  | Some cap => (starts (trace w) <= Z.to_nat (Z.max 1 cap))%nat
  | None => True
  end.
Proof.
  intros w.
  assert (Hinit : capped (init script cam delay policy)).
  { split; simpl; [lia |]. intros cap _. lia. }
  destruct (run_loop_capped fuel Hinit) as ([Hpos Hcap] & Hmax & Hstarts).
  fold w in Hpos, Hcap, Hmax, Hstarts. simpl in Hmax, Hstarts.
  assert (Hrc : restart_count w = Z.of_nat (starts (trace w))) by (unfold starts in *; simpl in *; lia).
  split; [exact Hrc |].
  destruct policy as [cap |]; [| exact I].
  specialize (Hcap cap Hmax). lia.
Qed.

(** X9. An iteration that holds a child, or that may not restart, makes no
    [Popen] call and leaves [restart_count] alone: the supervisor never
    starts a second child while one is running, nor one the policy
    forbids. *)
Theorem no_spawn_unless_idle_and_allowed (w : t) :
  process w <> None \/ should_restart w = false ->
  popen_calls (fst (run_iter spawn w)) = popen_calls w /\
  restart_count (fst (run_iter spawn w)) = restart_count w /\
  starts (trace (fst (run_iter spawn w))) = starts (trace w).
Proof.
  unfold run_iter, run_try, ensure_started, mbind, gets, lift, ret, modify,
    time_sleep, monitor_process.
  destruct w as [sp co d m r p rc pc tr]; simpl.
  destruct p as [h |]; simpl.
  - intros _.
    destruct (poll h) as [h' [code |]]; simpl; repeat split; trivial.
    unfold starts. rewrite filter_app, length_app. simpl. lia.
  - intros [Hheld | Hno]; [congruence |].
    rewrite Hno. simpl. repeat split.
Qed.

End SupervisorSafety.

Lemma no_spawn_unless_idle_and_allowed_witness :
  Watchdog.popen_calls (fst (Watchdog.run_iter Scenario.always_spawns Cases.holding)) = 1%nat.
Proof.
  apply (@no_spawn_unless_idle_and_allowed Scenario.always_spawns Cases.holding).
  left. discriminate.
Defined.

Section SupervisorRuns.

Import Watchdog.

Variable spawn : nat -> list string -> result exn Child.

(** Any cap in place of 2: the loop is left with [max(1, cap)] starts
    counted. *)
Lemma run_loop_reaches_bound (settle : nat) (cap : Z) :
  (forall n cmd c, spawn n cmd = Ok c -> lifetime c = Some 0%nat) ->
  (forall n cmd, (settle <= n)%nat -> exists c, spawn n cmd = Ok c) ->
  forall (budget : nat) (w : t),
    running w = true -> process w = None -> max_restarts w = Some cap ->
    (0 <= restart_delay w)%Z ->
    (0 <= restart_count w <= Z.max 1 cap)%Z ->
    (Z.to_nat (Z.max 1 cap - restart_count w) + (settle - popen_calls w) <= budget)%nat ->
    exists (w' : t) (fuel : nat),
      run_loop spawn fuel w = Exited w' /\
      process w' = None /\
      restart_count w' = Z.max 1 cap /\ should_restart w' = false /\
      (Z.of_nat (starts (trace w')) - restart_count w' =
       Z.of_nat (starts (trace w)) - restart_count w)%Z.
Proof.
  intros Hshort Hsettle.
  assert (Hstop : forall w : t,
             running w = true -> max_restarts w = Some cap ->
             restart_count w = Z.max 1 cap -> should_restart w = false).
  { intros w Hrun Hmax Hrc.
    rewrite (@should_restart_below_cap w cap Hrun Hmax).
    apply orb_false_iff. split; [apply Z.eqb_neq | apply Z.ltb_ge]; lia. }
  assert (Hleave : forall w : t,
             running w = true -> process w = None -> max_restarts w = Some cap ->
             restart_count w = Z.max 1 cap ->
             exists (w' : t) (fuel : nat),
               run_loop spawn fuel w = Exited w' /\
               process w' = None /\
               restart_count w' = Z.max 1 cap /\ should_restart w' = false /\
               (Z.of_nat (starts (trace w')) - restart_count w' =
                Z.of_nat (starts (trace w)) - restart_count w)%Z).
  { intros w Hrun Hp Hmax Hrc. exists w, 1%nat.
    rewrite (@run_loop_step spawn 0 w Hrun).
    rewrite (@run_iter_break spawn w Hp (Hstop w Hrun Hmax Hrc)).
    repeat split; auto. }
  induction budget as [| budget IH]; intros w Hrun Hp Hmax Hd Hrc Hbudget.
  - apply Hleave; trivial. lia.
  - destruct (Z.eq_dec (restart_count w) (Z.max 1 cap)) as [Hcap | Hbelow];
      [apply Hleave; trivial |].
    assert (Hyes : should_restart w = true).
    { rewrite (@should_restart_below_cap w cap Hrun Hmax).
      apply orb_true_iff.
      destruct (Z.eq_dec (restart_count w) 0) as [Hz | Hnz];
        [left; apply Z.eqb_eq; exact Hz | right; apply Z.ltb_lt; lia]. }
    pose proof (run_iter_counts_starts spawn w) as Hcount.
    destruct (spawn (popen_calls w) (build_command w)) as [c | e] eqn:Hspawn.
    + pose proof (Hshort _ _ _ Hspawn) as Hlife.
      rewrite (@run_iter_short_lived spawn w c Hp Hyes Hd Hspawn Hlife) in Hcount.
      cbn [fst] in Hcount.
      destruct (short_lived_state w (pid c))
        as (Hrun1 & Hp1 & Hrc1 & Hd1 & Hmax1 & Hpc1).
      destruct (IH (set_restart_count (restart_count w + 1)%Z
                      (attempted (Some (pid c)) w)))
        as (w' & fuel & Hloop & Hp' & Hrc' & Hno' & Hst');
        try congruence; try lia.
      exists w', (S fuel).
      rewrite (@run_loop_step spawn fuel w Hrun).
      rewrite (@run_iter_short_lived spawn w c Hp Hyes Hd Hspawn Hlife).
      repeat split; trivial. lia.
    + assert (Hearly : (popen_calls w < settle)%nat).
      { destruct (Nat.lt_ge_cases (popen_calls w) settle) as [Hlt | Hge]; [exact Hlt |].
        destruct (Hsettle _ (build_command w) Hge) as [c Hc]. congruence. }
      rewrite (@run_iter_failed_spawn spawn w e Hp Hyes Hd Hspawn) in Hcount.
      cbn [fst] in Hcount.
      destruct (failed_attempt_state w)
        as (Hrun1 & Hp1 & Hrc1 & Hd1 & Hmax1 & _ & Hpc1 & _).
      destruct (IH (called (ev_sleep (seconds (restart_delay w))) (attempted None w)))
        as (w' & fuel & Hloop & Hp' & Hrc' & Hno' & Hst');
        try congruence; try lia.
      exists w', (S fuel).
      rewrite (@run_loop_step spawn fuel w Hrun).
      rewrite (@run_iter_failed_spawn spawn w e Hp Hyes Hd Hspawn).
      repeat split; trivial. lia.
Qed.


(** Without a cap nothing stops the restarts. *)
Lemma run_loop_unlimited (fuel : nat) :
  (forall n cmd, exists c, spawn n cmd = Ok c /\ lifetime c = Some 0%nat) ->
  forall w : t,
    running w = true -> process w = None -> max_restarts w = None ->
    (0 <= restart_delay w)%Z ->
    exists w' : t,
      run_loop spawn fuel w = Looping w' /\
      restart_count w' = (restart_count w + Z.of_nat fuel)%Z /\
      popen_calls w' = (popen_calls w + fuel)%nat.
Proof.
  intros Hspawn.
  induction fuel as [| fuel IH]; intros w Hrun Hp Hmax Hd.
  - exists w. simpl. rewrite Hrun. simpl. repeat split; lia.
  - assert (Hyes : should_restart w = true).
    { unfold should_restart. rewrite Hrun, Hmax. simpl.
      destruct (restart_count w =? 0)%Z; reflexivity. }
    destruct (Hspawn (popen_calls w) (build_command w)) as (c & Hc & Hlife).
    destruct (short_lived_state w (pid c))
      as (Hrun1 & Hp1 & Hrc1 & Hd1 & Hmax1 & Hpc1).
    destruct (IH (set_restart_count (restart_count w + 1)%Z
                    (attempted (Some (pid c)) w)))
      as (w' & Hloop & Hrc & Hpc); try congruence.
    exists w'.
    rewrite (@run_loop_step spawn fuel w Hrun).
    rewrite (@run_iter_short_lived spawn w c Hp Hyes Hd Hc Hlife).
    repeat split; [exact Hloop | lia | lia].
Qed.


(** An iteration that wants to restart with a negative delay: [time.sleep]
    raises before [Popen] is reached and the handler sleeps a second. *)
Lemma run_iter_negative_delay (w : t) :
  process w = None -> should_restart w = true ->
  (0 < restart_count w)%Z -> (restart_delay w < 0)%Z ->
  run_iter spawn w = (called (ev_sleep (seconds 1)) w, Continue).
Proof.
  intros Hp Hyes Hrc Hd.
  unfold run_iter, run_try, ensure_started, mbind, gets, lift, ret, modify.
  rewrite Hp, Hyes. simpl.
  assert (Hpos : (restart_count w >? 0)%Z = true) by (apply Z.gtb_lt; lia).
  assert (Hneg : (seconds (restart_delay w) <? 0)%Z = true)
    by (apply Z.ltb_lt; unfold seconds; lia).
  rewrite Hpos. unfold time_sleep. rewrite Hneg. reflexivity.
Qed.

(** X12. With a negative restart delay, once a child was started and is
    gone the supervisor neither restarts it nor leaves the loop: every
    further iteration makes no [Popen] call and only sleeps one second in
    the exception handler, and [run] does not return. *)
Theorem negative_delay_never_restarts (w : t) (fuel : nat) :
  process w = None -> should_restart w = true ->
  (0 < restart_count w)%Z -> (restart_delay w < 0)%Z ->
  (exists w' : t,
      run_loop spawn fuel w = Looping w' /\
      popen_calls w' = popen_calls w /\
      restart_count w' = restart_count w /\
      trace w' = trace w ++ repeat (ev_sleep 1000) fuel) /\
  run spawn fuel w = None.
Proof.
  intros Hp Hyes Hrc Hd.
  assert (Hloop : exists w' : t,
             run_loop spawn fuel w = Looping w' /\
             popen_calls w' = popen_calls w /\
             restart_count w' = restart_count w /\
             trace w' = trace w ++ repeat (ev_sleep 1000) fuel).
  { revert w Hp Hyes Hrc Hd.
    induction fuel as [| fuel IH]; intros w Hp Hyes Hrc Hd.
    - exists w. simpl.
      assert (Hrun : running w = true).
      { unfold should_restart in Hyes. destruct (running w); [reflexivity | discriminate]. }
      rewrite Hrun, app_nil_r. repeat split.
    - assert (Hrun : running w = true).
      { unfold should_restart in Hyes. destruct (running w); [reflexivity | discriminate]. }
      rewrite (@run_loop_step spawn fuel w Hrun).
      rewrite (@run_iter_negative_delay w Hp Hyes Hrc Hd).
      destruct (IH (called (ev_sleep (seconds 1)) w)) as (w' & Hl & Hpc & Hrc' & Htr);
        trivial.
      exists w'. repeat split; trivial.
      rewrite Htr. simpl. rewrite <- app_assoc. reflexivity. }
  split; [exact Hloop |].
  destruct Hloop as (w' & Hl & _). unfold run. rewrite Hl. reflexivity.
Qed.

Lemma stop_process_frame (w : t) :
  running (stop_process w) = running w /\
  restart_count (stop_process w) = restart_count w /\
  popen_calls (stop_process w) = popen_calls w /\
  max_restarts (stop_process w) = max_restarts w.
Proof.
  unfold stop_process.
  destruct (process w) as [h |]; [| repeat split].
  destruct (on_terminate (child h)); [| repeat split].
  destruct (on_wait_grace (child h)) as [code | []];
    [repeat split | | repeat split | repeat split].
  destruct (on_kill (child h)); repeat split.
Qed.

(** A signal whose handler runs while the loop is at its condition check:
    the handle is released, [should_restart] answers false, and the loop is
    left there and then. A signal that arrives inside the body is the
    subject of [run_iter_signalled]. *)
Lemma signal_at_loop_head (w : t) (fuel : nat) :
  let w' := signal_handler w in
  running w' = false /\
  process w' = None /\
  should_restart w' = false /\
  restart_count w' = restart_count w /\
  popen_calls w' = popen_calls w /\
  run_loop spawn fuel w' = Exited w' /\
  run spawn fuel w' = Some w'.
Proof.
  intros w'.
  destruct (stop_process_frame (set_running false w)) as (Hrun & Hrc & Hpc & _).
  fold (signal_handler w) in Hrun, Hrc, Hpc. fold w' in Hrun, Hrc, Hpc.
  simpl in Hrun, Hrc, Hpc.
  assert (Hp : process w' = None) by apply stop_process_clears.
  assert (Hloop : run_loop spawn fuel w' = Exited w').
  { destruct fuel; simpl; rewrite Hrun; reflexivity. }
  repeat split; trivial.
  - unfold should_restart. rewrite Hrun. reflexivity.
  - unfold run. rewrite Hloop, (@stop_process_idle w' Hp). reflexivity.
Qed.

(** X14. [stop_process] on a running child only appends calls to the
    trace, and [kill()] is among them exactly when [terminate()] returned
    and the wait of the grace period timed out: a child that exits in time,
    or whose wait fails otherwise, is never killed. *)
Theorem kill_only_after_grace_timeout (w : t) (h : Popen) :
  process w = Some h ->
  exists new : list event,
    trace (stop_process w) = trace w ++ new /\
    (existsb is_kill new = true <->
     (exists u, on_terminate (child h) = Ok u) /\
     on_wait_grace (child h) = Raise TimeoutExpired).
Proof.
  intros Hp. unfold stop_process. rewrite Hp.
  destruct (on_terminate (child h)) as [u | e1]; simpl.
  - destruct (on_wait_grace (child h)) as [code | [| |]]; simpl.
    + eexists. split; [rewrite <- app_assoc; reflexivity |]. simpl.
      split; [discriminate | intros [_ H]; discriminate].
    + destruct (on_kill (child h)); simpl;
        (eexists; split; [rewrite <- !app_assoc; reflexivity |]); simpl;
        (split; [intros _; split; [exists u; reflexivity | reflexivity] | reflexivity]).
    + eexists. split; [rewrite <- app_assoc; reflexivity |]. simpl.
      split; [discriminate | intros [_ H]; discriminate].
    + eexists. split; [rewrite <- app_assoc; reflexivity |]. simpl.
      split; [discriminate | intros [_ H]; discriminate].
  - eexists. split; [reflexivity |]. simpl.
    split; [discriminate | intros [[u H] _]; discriminate].
Qed.

End SupervisorRuns.



Lemma negative_delay_never_restarts_witness :
  Watchdog.run Scenario.always_spawns 40 Cases.impatient = None.
Proof.
  apply (@negative_delay_never_restarts Scenario.always_spawns Cases.impatient 40%nat
           eq_refl eq_refl eq_refl eq_refl).
Defined.

Lemma kill_only_after_grace_timeout_witness :
  exists new : list Watchdog.event,
    Watchdog.trace (Watchdog.stop_process Cases.holding) =
      Watchdog.trace Cases.holding ++ new /\
    existsb Watchdog.is_kill new = true.
Proof.
  destruct (@kill_only_after_grace_timeout Cases.holding
              (Watchdog.mkPopen Scenario.stubborn None 0) eq_refl)
    as (new & Htrace & Hkill).
  exists new. split; [exact Htrace |].
  apply Hkill. split; [exists tt; reflexivity | reflexivity].
Defined.

(** * The demo mode of the emulator *)

Section DemoMode.

Import Emulator.

Lemma update_demo_danger_range (e : t) :
  (0 <= current_danger_level (fst (update_demo_danger e)) <= 100)%Z.
Proof.
  unfold update_demo_danger.
  destruct (Z.geb_spec (current_danger_level e + danger_direction e * 1) 100);
    simpl; [lia |].
  destruct (Z.leb_spec (current_danger_level e + danger_direction e * 1) 0);
    simpl; lia.
Qed.

Lemma demo_add (a b : nat) : forall e : t, demo (a + b) e = demo b (demo a e).
Proof.
  induction a as [| a IH]; intros e; simpl; [reflexivity | apply IH].
Qed.

Lemma demo_last (n : nat) (e : t) :
  demo (S n) e = fst (update_demo_danger (demo n e)).
Proof.
  replace (S n) with (n + 1)%nat by lia. rewrite demo_add. reflexivity.
Qed.

(** X15. After every update of the demo, from any level and any direction
    (also after the level was set from outside the range), the level lies
    between 0 and 100. *)
Theorem demo_level_stays_in_range (n : nat) (e : t) :
  (0 <= current_danger_level (demo (S n) e) <= 100)%Z.
Proof.
  rewrite demo_last. apply update_demo_danger_range.
Qed.

Lemma demo_climbs (k : nat) :
  forall level : Z,
    (0 <= level)%Z -> (level + Z.of_nat k < 100)%Z ->
    demo k (mk level 1) = mk (level + Z.of_nat k) 1.
Proof.
  induction k as [| k IH]; intros level Hlow Hhigh.
  - simpl. f_equal. lia.
  - cbn [demo]. unfold update_demo_danger. cbn [current_danger_level danger_direction].
    destruct (Z.geb_spec (level + 1 * 1) 100); [lia |].
    destruct (Z.leb_spec (level + 1 * 1) 0); [lia |].
    cbn [fst]. rewrite IH by lia. f_equal. lia.
Qed.

Lemma demo_descends (k : nat) :
  forall level : Z,
    (level <= 100)%Z -> (0 < level - Z.of_nat k)%Z ->
    demo k (mk level (-1)) = mk (level - Z.of_nat k) (-1).
Proof.
  induction k as [| k IH]; intros level Hhigh Hlow.
  - simpl. f_equal. lia.
  - cbn [demo]. unfold update_demo_danger. cbn [current_danger_level danger_direction].
    destruct (Z.geb_spec (level + -1 * 1) 100); [lia |].
    destruct (Z.leb_spec (level + -1 * 1) 0); [lia |].
    cbn [fst]. rewrite IH by lia. f_equal. lia.
Qed.

Lemma demo_peak : demo 100 init = mk 100 (-1).
Proof.
  change 100%nat with (S 99). rewrite demo_last.
  unfold init. rewrite demo_climbs by lia. reflexivity.
Qed.

Lemma demo_period : demo 200 init = init.
Proof.
  change 200%nat with (100 + S 99)%nat. rewrite demo_add, demo_peak, demo_last.
  rewrite demo_descends by lia. reflexivity.
Qed.

(** X16. Started by [__init__], the demo level is a triangle wave: it is
    [n] after [n <= 100] updates, [100 - n] after [100 + n] updates, and
    after 200 updates the emulator is back in its initial state, so the
    wave repeats with period 200. *)
Theorem demo_triangle_wave (n : nat) :
  (n <= 100)%nat ->
  current_danger_level (demo n init) = Z.of_nat n /\
  current_danger_level (demo (100 + n) init) = (100 - Z.of_nat n)%Z /\
  forall m : nat, demo (200 + m) init = demo m init.
Proof.
  intros Hn. split; [| split].
  - destruct (Nat.eq_dec n 100) as [-> | Hlt].
    + rewrite demo_peak. reflexivity.
    + unfold init. rewrite demo_climbs by lia. simpl. lia.
  - rewrite demo_add, demo_peak.
    destruct (Nat.eq_dec n 100) as [-> | Hlt].
    + change 100%nat with (S 99). rewrite demo_last.
      rewrite demo_descends by lia. reflexivity.
    + rewrite demo_descends by lia. simpl. lia.
  - intros m. rewrite demo_add, demo_period. reflexivity.
Qed.

End DemoMode.

Lemma demo_triangle_wave_witness :
  Emulator.current_danger_level (Emulator.demo 37 Emulator.init) = 37%Z /\
  Emulator.current_danger_level (Emulator.demo 137 Emulator.init) = 63%Z.
Proof.
  destruct (@demo_triangle_wave 37%nat) as (Hup & Hdown & _).
  - repeat constructor.
  - split; [exact Hup | exact Hdown].
Defined.

(** * The pipeline end to end *)

Section EndToEnd.

Variables Frame float error : Type.
Variable net_Detect : Frame -> result error (list (Detection.RawDetection float)).
Variable net_GetClassDesc : Z -> result error string.
Variable int_of_float : float -> result error Z.

Local Abbreviation detect :=
  (Detection.jetson_object_detection net_Detect net_GetClassDesc int_of_float).
Local Abbreviation exec := (Detection.exec net_Detect net_GetClassDesc int_of_float).
Local Abbreviation started := (Detection.start (Detection.FrameProcessor_init Frame float)).
Local Abbreviation worker_turn :=
  (History.worker_turn net_Detect net_GetClassDesc int_of_float).

(** X17. Over any interleaving of submits, worker steps and reads, the
    result queue holds at most 2 results and keeps its capacity of 2; so
    the worker's [put], made only when the queue is not full, has room
    whenever it is made. *)
Theorem result_queue_never_overfull (ops : list (Detection.op Frame)) :
  let p := exec ops started in
  (PyQueue.qsize (Detection.result_queue p) <= 2)%nat /\
  PyQueue.maxsize (Detection.result_queue p) = 2%nat /\
  (PyQueue.full (Detection.result_queue p) = false ->
   PyQueue.qsize (Detection.result_queue p) < 2)%nat.
Proof.
  intros p.
  destruct (exec_bounded net_Detect net_GetClassDesc int_of_float ops
              (started_bounded Frame float)) as (_ & _ & Hm & Hs).
  fold p in Hm, Hs. repeat split; trivial.
  rewrite (full_spec _ Hm). intros Hroom. apply Nat.leb_gt. exact Hroom.
Qed.

(** X18. From empty queues, a frame submitted in one pass of the main
    loop and processed by the worker before the next pass is what that next
    pass acts on: its detections become [current_detections], and with the
    emulator enabled the datagram of that pass is 50 exactly when the frame
    has detections. *)
Theorem frame_reaches_alert_side
  (frame : Frame) (rgb_in : option Frame) (st : Detection.MainState Frame float) :
  PyQueue.maxsize (Detection.rgb_queue (Detection.processor st)) = 2%nat ->
  PyQueue.items (Detection.rgb_queue (Detection.processor st)) = [] ->
  PyQueue.maxsize (Detection.result_queue (Detection.processor st)) = 2%nat ->
  PyQueue.items (Detection.result_queue (Detection.processor st)) = [] ->
  let st1 := worker_turn (fst (Detection.main_cycle (Some frame) st)) in
  let pass := Detection.main_cycle rgb_in st1 in
  Detection.current_detections (fst pass) = detect frame /\
  (Detection.emulator_enabled (Detection.globals st) = true ->
   filter Detection.is_send (snd pass) =
     [Detection.sendto (match detect frame with
                        | [] => Detection.wire_danger_0
                        | _ :: _ => Detection.wire_danger_50
                        end) "127.0.0.1" 5555]).
Proof.
  intros Hm1 Hi1 Hm2 Hi2 st1 pass.
  assert (Hcur : Detection.current_detections (fst pass) = detect frame).
  { unfold pass, st1, History.worker_turn.
    destruct st as [[[m1 waiting] [m2 results] r] cur g].
    simpl in Hm1, Hi1, Hm2, Hi2. subst m1 waiting m2 results.
    rewrite !main_cycle_unfold. cbn [fst snd Detection.processor
      Detection.current_detections Detection.globals].
    destruct rgb_in; reflexivity. }
  split; [exact Hcur |].
  intros Hon.
  assert (Hon1 : Detection.emulator_enabled (Detection.globals st1) = true).
  { unfold st1, History.worker_turn. cbn [Detection.globals].
    rewrite main_cycle_unfold. cbn [fst Detection.globals].
    destruct (Detection.sound_enabled (Detection.globals st)) eqn:Hs; [| exact Hon].
    rewrite (proj2 (play_alert_sound_flags _ _)). exact Hon. }
  unfold pass. rewrite (main_cycle_sends_one_datagram rgb_in st1 Hon1).
  fold pass. rewrite Hcur. reflexivity.
Qed.

End EndToEnd.

Lemma frame_reaches_alert_side_witness :
  let st := Detection.main_init nat Z Scenario.enabled in
  let st1 := History.worker_turn Scenario.net_Detect Scenario.net_GetClassDesc
               Scenario.int_of_float (fst (Detection.main_cycle (Some 2%nat) st)) in
  Detection.current_detections (fst (Detection.main_cycle None st1)) =
    [Detection.mkDetection [10; 20; 110; 220]%Z "car" 1%Z] /\
  filter Detection.is_send (snd (Detection.main_cycle None st1)) =
    [Detection.sendto Detection.wire_danger_50 "127.0.0.1" 5555].
Proof.
  intros st st1.
  destruct (@frame_reaches_alert_side nat Z unit Scenario.net_Detect
              Scenario.net_GetClassDesc Scenario.int_of_float 2%nat None st
              eq_refl eq_refl eq_refl eq_refl) as [Hcur Hsend].
  split; [exact Hcur | exact (Hsend eq_refl)].
Defined.

Lemma result_queue_never_overfull_witness :
  let p := Scenario.exec [Detection.Submit 1%nat; Detection.WorkerStep] Scenario.processor0 in
  (PyQueue.qsize (Detection.result_queue p) < 2)%nat.
Proof.
  apply (@result_queue_never_overfull nat Z unit Scenario.net_Detect
           Scenario.net_GetClassDesc Scenario.int_of_float
           [Detection.Submit 1%nat; Detection.WorkerStep]).
  reflexivity.
Defined.

(** * A shutdown signal within an iteration *)

Section SignalWithinIteration.

Import Watchdog.

Variable spawn : nat -> list string -> result exn Child.

Local Arguments signal_handler : simpl never.

(** Without a signal the iteration is the plain one. *)
Lemma run_iter_unsignalled (w : t) :
  run_iter_signalled spawn None w = run_iter spawn w.
Proof.
  unfold run_iter_signalled, run_iter, run_try_signalled, run_try,
    ensure_started_signalled, ensure_started, arrives, mbind, gets, lift, ret, modify.
  destruct w as [sp co d m r p rc pc tr]; simpl.
  destruct p as [h |]; simpl; [reflexivity |].
  destruct (should_restart _); simpl; [| reflexivity].
  destruct (rc >? 0)%Z; simpl.
  - unfold time_sleep. destruct (seconds d <? 0)%Z; simpl; [reflexivity |].
    destruct (start_process spawn _) as [w1 []]; reflexivity.
  - destruct (start_process spawn _) as [w1 []]; reflexivity.
Qed.

(** What the handler leaves behind: nothing running, no handle, the same
    counters, and only calls on the old child added to the trace. *)
Lemma signal_handler_shape (w : t) :
  exists calls : list event,
    signal_handler w =
      mk (script_path w) (camera_only w) (restart_delay w) (max_restarts w)
         false None (restart_count w) (popen_calls w) (trace w ++ calls) /\
    starts calls = 0%nat.
Proof.
  unfold signal_handler, stop_process.
  destruct w as [sp co d m r p rc pc tr]; simpl.
  destruct p as [h |]; simpl.
  - destruct (on_terminate (child h)); simpl;
      [destruct (on_wait_grace (child h)) as [code | []]; simpl;
       [| destruct (on_kill (child h)); simpl | |] |];
      (unfold set_process, called, set_running; simpl;
       eexists; split; [rewrite <- ?app_assoc; reflexivity | reflexivity]).
  - exists []. unfold set_running; simpl. rewrite app_nil_r. split; reflexivity.
Qed.

Ltac handled :=
  repeat match goal with
         | |- context [signal_handler ?x] =>
             let calls := fresh "calls" in
             let Hshape := fresh "Hshape" in
             let Hquiet := fresh "Hquiet" in
             destruct (signal_handler_shape x) as (calls & Hshape & Hquiet);
             rewrite Hshape; clear Hshape; simpl
         end.

Ltac branches :=
  repeat match goal with
         | |- context [match spawn ?n ?c with _ => _ end] => destruct (spawn n c); simpl
         | |- context [match lifetime ?c with _ => _ end] =>
             destruct (lifetime c) as [[| ?] |]; simpl
         | |- context [if (?a <? ?b)%Z then _ else _] => destruct (a <? b)%Z; simpl
         | |- context [if (?a >? ?b)%Z then _ else _] => destruct (a >? b)%Z; simpl
         | |- context [let (_, _) := poll ?h in _] =>
             destruct (poll h) as [? [? |]]; simpl
         | |- context [signal_handler ?x] =>
             let calls := fresh "calls" in
             let Hshape := fresh "Hshape" in
             let Hquiet := fresh "Hquiet" in
             destruct (signal_handler_shape x) as (calls & Hshape & Hquiet);
             rewrite Hshape; clear Hshape; simpl
         end.

Ltac counted :=
  rewrite ?starts_app; unfold starts in *; simpl; lia.

(** Wherever the signal arrives, the iteration makes at most one [Popen]
    call and counts exactly the children that call returned. *)
Lemma run_iter_signalled_counts (signal : point) (w : t) :
  (popen_calls (fst (run_iter_signalled spawn (Some signal) w)) <= S (popen_calls w))%nat /\
  (restart_count (fst (run_iter_signalled spawn (Some signal) w)) - restart_count w =
   Z.of_nat (starts (trace (fst (run_iter_signalled spawn (Some signal) w)))) -
   Z.of_nat (starts (trace w)))%Z.
Proof.
  unfold run_iter_signalled, run_try_signalled, ensure_started_signalled, arrives,
    mbind, gets, lift, ret, modify, time_sleep, start_process, monitor_process.
  destruct w as [sp co d m r p rc pc tr].
  destruct signal; simpl; handled;
    (destruct p as [h |]; simpl; branches;
     try (destruct (should_restart _); simpl; branches);
     split; counted).
Qed.

(** Either the place of the signal is not reached in this iteration, which
    then is the plain one, or the handler ran and [running] is false. *)
Lemma run_iter_signalled_stops (signal : point) (w : t) :
  run_iter_signalled spawn (Some signal) w = run_iter spawn w \/
  running (fst (run_iter_signalled spawn (Some signal) w)) = false.
Proof.
  unfold run_iter_signalled, run_iter, run_try_signalled, run_try,
    ensure_started_signalled, ensure_started, arrives,
    mbind, gets, lift, ret, modify, time_sleep, start_process, monitor_process.
  destruct w as [sp co d m r p rc pc tr].
  destruct signal; simpl; handled;
    (destruct p as [h |]; simpl; branches;
     try (destruct (should_restart _); simpl; branches);
     first [right; reflexivity | left; reflexivity]).
Qed.

Local Arguments should_restart : simpl never.

(** A signal at the top of the body: the handler releases the child, and
    the iteration breaks out of the loop without a [Popen] call. *)
Lemma signal_at_body_start (w : t) :
  run_iter_signalled spawn (Some at_body_start) w = (signal_handler w, Break).
Proof.
  unfold run_iter_signalled, run_try_signalled, ensure_started_signalled, arrives,
    mbind, gets, lift, ret, modify.
  simpl.
  destruct (signal_handler_shape w) as (calls & Hshape & _).
  rewrite Hshape. simpl. reflexivity.
Qed.

(** A signal after [should_restart()] has answered: the start that was
    decided on still takes place. *)
Lemma signal_before_restart_sleep (w : t) :
  process w = None -> should_restart w = true -> (0 <= restart_delay w)%Z ->
  running (fst (run_iter_signalled spawn (Some before_restart_sleep) w)) = false /\
  popen_calls (fst (run_iter_signalled spawn (Some before_restart_sleep) w)) =
    S (popen_calls w) /\
  forall c : Child,
    spawn (popen_calls w) (build_command w) = Ok c ->
    restart_count (fst (run_iter_signalled spawn (Some before_restart_sleep) w)) =
      (restart_count w + 1)%Z.
Proof.
  intros Hp Hyes Hd.
  assert (Hsleep : (seconds (restart_delay w) <? 0)%Z = false)
    by (apply Z.ltb_ge; unfold seconds; lia).
  unfold run_iter_signalled, run_try_signalled, ensure_started_signalled, arrives,
    mbind, gets, lift, ret, modify, time_sleep, start_process, monitor_process,
    build_command.
  destruct w as [sp co d m r p rc pc tr]. simpl in Hp, Hyes, Hd, Hsleep. subst p.
  simpl. rewrite Hyes. simpl. handled. rewrite Hsleep.
  destruct (rc >? 0)%Z; simpl; branches;
    (split; [reflexivity |]; split; [reflexivity |]);
    intros c' Hc; first [discriminate Hc | reflexivity].
Qed.

(** Once [running] is false the loop is left at its next condition check,
    and the cleanup releases the child still held, asking it to terminate. *)
Lemma stopped_supervisor_cleans_up (w : t) (fuel : nat) :
  running w = false ->
  run_loop spawn fuel w = Exited w /\
  run spawn fuel w = Some (stop_process w) /\
  process (stop_process w) = None /\
  popen_calls (stop_process w) = popen_calls w /\
  restart_count (stop_process w) = restart_count w /\
  forall h : Popen,
    process w = Some h ->
    existsb (is_terminate (pid (child h))) (trace (stop_process w)) = true.
Proof.
  intros Hrun.
  assert (Hloop : run_loop spawn fuel w = Exited w).
  { destruct fuel; simpl; rewrite Hrun; reflexivity. }
  split; [exact Hloop |].
  split; [unfold run; rewrite Hloop; reflexivity |].
  unfold stop_process.
  destruct w as [sp co d m r p rc pc tr]. simpl.
  destruct p as [h |]; simpl.
  - assert (Hpid : (pid (child h) =? pid (child h))%Z = true) by apply Z.eqb_refl.
    destruct (on_terminate (child h)); simpl;
      [destruct (on_wait_grace (child h)) as [code | []]; simpl;
       [| destruct (on_kill (child h)); simpl | |] |];
      (repeat (split; [reflexivity |]);
       intros h' Hh; injection Hh as <-;
       rewrite ?existsb_app; simpl; rewrite Hpid;
       rewrite ?orb_true_r; reflexivity).
  - repeat (split; [reflexivity |]). intros h Hh. discriminate Hh.
Qed.


End SignalWithinIteration.


(** * The restart cap under a negative restart delay *)

(** A supervisor that wants to restart with a negative delay stays in the
    loop for good: no iteration reaches [Popen], and [should_restart]
    keeps answering true. *)
Lemma run_loop_stuck (spawn : nat -> list string -> result Watchdog.exn Watchdog.Child)
  (fuel : nat) (w : Watchdog.t) :
  Watchdog.process w = None -> Watchdog.should_restart w = true ->
  (0 < Watchdog.restart_count w)%Z -> (Watchdog.restart_delay w < 0)%Z ->
  exists w' : Watchdog.t,
    Watchdog.run_loop spawn fuel w = Watchdog.Looping w' /\
    Watchdog.starts (Watchdog.trace w') = Watchdog.starts (Watchdog.trace w) /\
    Watchdog.restart_count w' = Watchdog.restart_count w /\
    Watchdog.should_restart w' = true.
Proof.
  revert w. induction fuel as [| fuel IH]; intros w Hp Hyes Hrc Hd.
  - exists w. simpl.
    assert (Hrun : Watchdog.running w = true).
    { unfold Watchdog.should_restart in Hyes.
      destruct (Watchdog.running w); [reflexivity | discriminate]. }
    rewrite Hrun. repeat split. exact Hyes.
  - assert (Hrun : Watchdog.running w = true).
    { unfold Watchdog.should_restart in Hyes.
      destruct (Watchdog.running w); [reflexivity | discriminate]. }
    rewrite (@run_loop_step spawn fuel w Hrun).
    rewrite (@run_iter_negative_delay spawn w Hp Hyes Hrc Hd).
    destruct (IH (Watchdog.called (Watchdog.ev_sleep (Watchdog.seconds 1)) w))
      as (w' & Hl & Hst & Hrc' & Hyes'); trivial.
    exists w'. repeat split; trivial.
    rewrite Hst. unfold Watchdog.starts. simpl.
    rewrite filter_app. simpl. rewrite app_nil_r. reflexivity.
Qed.

